(** * DIVA 0x API: the order book service

    A shallow embedding of [src/services/orderbook_service.ts]:
    the request filter [filterOrder], the collateral step
    [getFillableOrder], the bid/ask folds of [getOrderBookAsync], the
    best-bid/best-ask scans of [getPricesAsync] and the expiry checks of
    [getOrdersAsync] and [getBatchOrdersAsync].

    Amounts are [BigNumber]s of [@0x/utils] (bignumber.js): arbitrary
    precision decimals together with NaN and the two infinities.  Arrays are
    lists, read with [!!] and written with [<[ i := v ]>]; reading a
    property of [undefined] raises, which the [Result] type records. *)

From Stdlib Require Import ZArith QArith Qround Lqa Lia Bool Ascii String List.
From stdpp Require Import base list.
Import ListNotations.

Local Open Scope Z_scope.

(** ** BigNumber *)

Module BN.

(** A bignumber.js value.  The sign of a zero is not modelled: it is
    invisible to every comparison, and only decides the sign of the
    infinity obtained when dividing by that zero. *)
Inductive BigNumber : Type :=
| BNfin (q : Q)
| BNinf (neg : bool)
| BNnan.

Definition of_Z (z : Z) : BigNumber := BNfin (inject_Z z).

Definition Qneg_b (q : Q) : bool :=
  match (q ?= 0)%Q with Lt => true | _ => false end.

Definition Qzero_b (q : Q) : bool := Qeq_bool q 0.

(** [x.multipliedBy(y)]: exact. *)
Definition times (x y : BigNumber) : BigNumber :=
  match x, y with
  | BNnan, _ | _, BNnan => BNnan
  | BNfin p, BNfin q => BNfin (p * q)
  | BNinf s, BNinf t => BNinf (xorb s t)
  | BNinf s, BNfin q | BNfin q, BNinf s =>
      if Qzero_b q then BNnan else BNinf (xorb s (Qneg_b q))
  end.

(** [x.plus(y)] and [x.minus(y)]: exact. *)
Definition plus (x y : BigNumber) : BigNumber :=
  match x, y with
  | BNnan, _ | _, BNnan => BNnan
  | BNfin p, BNfin q => BNfin (p + q)
  | BNinf s, BNinf t => if Bool.eqb s t then BNinf s else BNnan
  | BNinf s, BNfin _ | BNfin _, BNinf s => BNinf s
  end.

Definition negated (x : BigNumber) : BigNumber :=
  match x with
  | BNfin p => BNfin (- p)
  | BNinf s => BNinf (negb s)
  | BNnan => BNnan
  end.

Definition minus (x y : BigNumber) : BigNumber :=
  match x, y with
  | BNfin p, BNfin q => BNfin (p - q)
  | _, _ => plus x (negated y)
  end.

(** ROUND_HALF_UP, the default rounding mode: towards the nearest
    neighbour, away from zero when equidistant. *)
Definition round_half_up (x : Q) : Z :=
  if Qle_bool 0 x then Qfloor (x + (1 # 2)) else - Qfloor (- x + (1 # 2)).

Definition scale (dp : nat) : Q := inject_Z (10 ^ Z.of_nat dp).

(** Rounding to [dp] decimal places. *)
Definition round_dp (dp : nat) (x : Q) : Q :=
  inject_Z (round_half_up (x * scale dp)) / scale dp.

(** [x.div(y)]: the quotient rounded to DECIMAL_PLACES decimal places
    ([dp]); [@0x/utils] configures 78. *)
Definition div (dp : nat) (x y : BigNumber) : BigNumber :=
  match x, y with
  | BNnan, _ | _, BNnan => BNnan
  | BNinf _, BNinf _ => BNnan
  | BNinf s, BNfin q => BNinf (xorb s (Qneg_b q))
  | BNfin _, BNinf _ => BNfin 0
  | BNfin p, BNfin q =>
      if Qzero_b q then (if Qzero_b p then BNnan else BNinf (Qneg_b p))
      else BNfin (round_dp dp (p / q))
  end.

(** [x.comparedTo(y)]; [None] when either side is NaN. *)
Definition comparedTo (x y : BigNumber) : option comparison :=
  match x, y with
  | BNnan, _ | _, BNnan => None
  | BNfin p, BNfin q => Some (p ?= q)%Q
  | BNinf s, BNinf t =>
      Some (if Bool.eqb s t then Eq else if s then Lt else Gt)
  | BNinf s, BNfin _ => Some (if s then Lt else Gt)
  | BNfin _, BNinf s => Some (if s then Gt else Lt)
  end.

Definition gt (x y : BigNumber) : bool :=
  match comparedTo x y with Some Gt => true | _ => false end.

Definition lte (x y : BigNumber) : bool :=
  match comparedTo x y with Some Lt | Some Eq => true | _ => false end.

Definition gte (x y : BigNumber) : bool :=
  match comparedTo x y with Some Gt | Some Eq => true | _ => false end.

End BN.

Export BN.

(** ** Strings, errors and arrays *)

(** [String.prototype.toLowerCase], on the ASCII letters that hexadecimal
    addresses are made of. *)
Definition lower_ascii (c : ascii) : ascii :=
  let n := nat_of_ascii c in
  if ((65 <=? n) && (n <=? 90))%nat then ascii_of_nat (n + 32) else c.

Fixpoint toLowerCase (s : string) : string :=
  match s with
  | EmptyString => EmptyString
  | String c rest => String (lower_ascii c) (toLowerCase rest)
  end.

(** What a call can raise: a property read on [undefined], or the address
    library refusing a string. *)
Inductive Error : Type :=
| TypeError
| AddressError.

Inductive Result (A : Type) : Type :=
| Ok (a : A)
| Throw (e : Error).

Arguments Ok {A} a.
Arguments Throw {A} e.

Definition bind {A B : Type} (r : Result A) (k : A -> Result B) : Result B :=
  match r with
  | Ok a => k a
  | Throw e => Throw e
  end.

Notation "'try!' x := r 'in' k" := (bind r (fun x => k))
  (at level 10, x name, r at level 100, k at level 200).

(** [arr[i]] for a signed index: [undefined] below zero and past the end. *)
Definition arrayGet {A : Type} (arr : list A) (i : Z) : option A :=
  if i <? 0 then None else arr !! Z.to_nat i.

(** [arr[i] = v] at an index that [arrayGet] has found. *)
Definition arraySet {A : Type} (arr : list A) (i : Z) (v : A) : list A :=
  <[ Z.to_nat i := v ]> arr.

(** ** Data model *)

Record Order : Type := {
  maker : string;
  taker : string;
  makerToken : string;
  takerToken : string;
  makerAmount : BigNumber;
  takerAmount : BigNumber;
  takerTokenFeeAmount : BigNumber;
  feeRecipient : string;
  expiry : BigNumber;
  salt : BigNumber
}.

Record MetaData : Type := {
  orderHash : string;
  remainingFillableTakerAmount : BigNumber
}.

Record SRAOrder : Type := {
  order : Order;
  metaData : MetaData
}.

(** [{...order, metaData: {...order.metaData, remainingFillableTakerAmount}}]:
    a fresh object, the argument is left as it was. *)
Definition withRemaining (o : SRAOrder) (r : BigNumber) : SRAOrder :=
  {| order := order o;
     metaData := {| orderHash := orderHash (metaData o);
                    remainingFillableTakerAmount := r |} |}.

(** The query of [getPricesAsync].  [takerTokenFee] and [threshold] are
    JavaScript numbers; they count raw units and are whole numbers here. *)
Record OrderbookPriceRequest : Type := {
  req_page : Z;
  req_perPage : Z;
  req_graphUrl : string;
  req_createdBy : string;
  req_taker : string;
  req_feeRecipient : string;
  req_takerTokenFee : Z;
  req_threshold : Z
}.

Record FillableOrderType : Type := {
  extendedOrder : SRAOrder;
  minOfBalancesOrAllowances : list BigNumber
}.

Record MakerInfoType : Type := {
  makers : list string;
  makerTokens : list string
}.

(** The record built by [getBidOrAskFormat]. *)
Record OrderbookPriceResponse : Type := {
  resp_maker : string;
  resp_taker : string;
  resp_makerToken : string;
  resp_takerToken : string;
  resp_makerAmount : BigNumber;
  resp_takerAmount : BigNumber;
  resp_takerTokenFeeAmount : BigNumber;
  resp_feeRecipient : string;
  resp_expiry : BigNumber;
  resp_remainingFillableTakerAmount : BigNumber
}.

Record PaginatedCollection (A : Type) : Type := {
  total : nat;
  page : Z;
  perPage : Z;
  records : list A
}.

Arguments total {A} _.
Arguments page {A} _.
Arguments perPage {A} _.
Arguments records {A} _.

Record OrderbookResponse : Type := {
  bids : PaginatedCollection SRAOrder;
  asks : PaginatedCollection SRAOrder
}.

(** A market of [getPricesAsync] with its ranked orders. *)
Record Pool : Type := {
  baseToken : string;
  quoteToken : string;
  pool_bids : list SRAOrder;
  pool_asks : list SRAOrder
}.

Record PriceRecord : Type := {
  price_baseToken : string;
  price_quoteToken : string;
  bid : option OrderbookPriceResponse;
  ask : option OrderbookPriceResponse
}.

(** Modelled from the spec: [paginationUtils.paginate] is not among the
    sources.  Page [p] of size [n] holds the items after the first
    [(p - 1) * n], at most [n] of them, and the envelope carries the size of
    the whole collection. *)
Definition paginate {A : Type} (collection : list A) (p n : Z)
  : PaginatedCollection A :=
  {| total := length collection;
     page := p;
     perPage := n;
     records := take (Z.to_nat n) (drop (Z.to_nat ((p - 1) * n)) collection) |}.

(** ** The order book service *)

Section OrderBookService.

(** Constants of [../constants] and [../config], the precision that
    [@0x/utils] configures for [BigNumber.div], and the checksum function
    [getAddress] of [@ethersproject/address], which raises on a string
    that is not an address. *)
Variable NULL_ADDRESS : string.
Variable DIVA_GOVERNANCE_ADDRESS : string.
Variable ONE_SECOND_MS : Z.
Variable SRA_ORDER_EXPIRATION_BUFFER_SECONDS : Z.
Variable DECIMAL_PLACES : nat.
Variable getAddress : string -> Result string.

Set Default Proof Using "Type".

(** *** filterOrder *)

(** [new BigNumber(req.takerTokenFee / 100000)].  The quotient is taken on
    JavaScript numbers and then read back through its shortest decimal
    form; for a whole number of fee units below 10^15 that form is the
    decimal [takerTokenFee / 100000] itself, which is the value kept
    here. *)
Definition takerTokenFeeRate (req : OrderbookPriceRequest) : BigNumber :=
  BNfin (Qmake (req_takerTokenFee req) 100000).

Definition takerTokenFeeAmountExpected
    (o : SRAOrder) (req : OrderbookPriceRequest) : BigNumber :=
  times (takerAmount (order o)) (takerTokenFeeRate req).

(** [fee.lte(expected.minus(tol)) || fee.gte(expected.plus(tol))] *)
Definition outOfTolerance (fee expected tol : BigNumber) : bool :=
  lte fee (minus expected tol) || gte fee (plus expected tol).

(** The fee block of [filterOrder]: [true] when it returns [false] from
    inside [if (req.takerTokenFee !== -1) { ... }]. *)
Definition feeCheckRejects (o : SRAOrder) (req : OrderbookPriceRequest) : bool :=
  if negb (req_takerTokenFee req =? -1) then
    let expected := takerTokenFeeAmountExpected o req in
    if String.eqb (taker (order o)) NULL_ADDRESS
       && String.eqb (feeRecipient (order o)) (toLowerCase DIVA_GOVERNANCE_ADDRESS)
       && outOfTolerance (takerTokenFeeAmount (order o)) expected (of_Z 1)
    then true
    else
      let toleranceTakerTokenFeeAmount := of_Z 1 in
      if outOfTolerance (takerTokenFeeAmount (order o)) expected
           toleranceTakerTokenFeeAmount
      then true
      else false
  else false.

Definition takerCheckRejects (o : SRAOrder) (req : OrderbookPriceRequest) : bool :=
  negb (String.eqb (req_taker req) NULL_ADDRESS)
  && negb (String.eqb (req_taker req) (toLowerCase (taker (order o)))).

Definition feeRecipientCheckRejects
    (o : SRAOrder) (req : OrderbookPriceRequest) : bool :=
  negb (String.eqb (req_feeRecipient req) NULL_ADDRESS)
  && negb (String.eqb (toLowerCase (feeRecipient (order o))) (req_feeRecipient req)).

Definition thresholdCheckRejects
    (o : SRAOrder) (req : OrderbookPriceRequest) : bool :=
  (negb (req_threshold req =? 0)
   && lte (remainingFillableTakerAmount (metaData o)) (of_Z (req_threshold req)))
  || lte (remainingFillableTakerAmount (metaData o)) (of_Z 100).

Definition filterOrder (o : SRAOrder) (req : OrderbookPriceRequest) : bool :=
  if feeCheckRejects o req then false
  else if takerCheckRejects o req then false
  else if feeRecipientCheckRejects o req then false
  else if thresholdCheckRejects o req then false
  else true.

(** *** getBidOrAskFormat and getMakerInfo *)

Definition getBidOrAskFormat (record : SRAOrder) : Result OrderbookPriceResponse :=
  try! m := getAddress (maker (order record)) in
  try! t := getAddress (taker (order record)) in
  try! mt := getAddress (makerToken (order record)) in
  try! tt := getAddress (takerToken (order record)) in
  try! fr := getAddress (feeRecipient (order record)) in
  Ok {| resp_maker := m;
        resp_taker := t;
        resp_makerToken := mt;
        resp_takerToken := tt;
        resp_makerAmount := makerAmount (order record);
        resp_takerAmount := takerAmount (order record);
        resp_takerTokenFeeAmount := takerTokenFeeAmount (order record);
        resp_feeRecipient := fr;
        resp_expiry := expiry (order record);
        resp_remainingFillableTakerAmount :=
          remainingFillableTakerAmount (metaData record) |}.

Definition getMakerInfo (recs : list SRAOrder) : MakerInfoType :=
  {| makers := map (fun data => maker (order data)) recs;
     makerTokens := map (fun data => makerToken (order data)) recs |}.

(** *** getFillableOrder *)

(** The body of the callback of [makers.map] at position [index]: does
    the entry name the order's maker and maker token?  [makerTokens[index]]
    is only read when the maker matches, and reading it past the end of
    [makerTokens] raises. *)
Definition matchesAt (mkrTokens : list string) (o : SRAOrder)
    (mkr : string) (index : nat) : Result bool :=
  if String.eqb (toLowerCase mkr) (toLowerCase (maker (order o))) then
    match mkrTokens !! index with
    | None => Throw TypeError
    | Some tok =>
        Ok (String.eqb (toLowerCase tok) (toLowerCase (makerToken (order o))))
    end
  else Ok false.

(** The index search: [makerIndex] starts at [-1] and is overwritten at
    every matching position, in increasing order of [index]. *)
Fixpoint findMakerIndex (mkrs mkrTokens : list string) (o : SRAOrder)
    (index : nat) (makerIndex : Z) : Result Z :=
  match mkrs with
  | [] => Ok makerIndex
  | mkr :: rest =>
      try! hit := matchesAt mkrTokens o mkr index in
      findMakerIndex rest mkrTokens o (S index)
        (if hit then Z.of_nat index else makerIndex)
  end.

(** [makerAmount * remainingFillableTakerAmount / takerAmount] *)
Definition remainingFillableMakerAmount (o : SRAOrder) : BigNumber :=
  div DECIMAL_PLACES
    (times (makerAmount (order o)) (remainingFillableTakerAmount (metaData o)))
    (takerAmount (order o)).

(** [available * takerAmount / makerAmount] *)
Definition clippedTakerAmount (o : SRAOrder) (available : BigNumber) : BigNumber :=
  div DECIMAL_PLACES (times available (takerAmount (order o)))
    (makerAmount (order o)).

Definition getFillableOrder (mkrs mkrTokens : list string)
    (minOf : list BigNumber) (o : SRAOrder) : Result FillableOrderType :=
  let implied := remainingFillableMakerAmount o in
  try! makerIndex := findMakerIndex mkrs mkrTokens o 0 (-1) in
  match arrayGet minOf makerIndex with
  | None => Throw TypeError
  | Some remainingMakerMinOfBalancesOrAllowances =>
      if gt remainingMakerMinOfBalancesOrAllowances (of_Z 0) then
        let remaining :=
          if gt implied remainingMakerMinOfBalancesOrAllowances
          then clippedTakerAmount o remainingMakerMinOfBalancesOrAllowances
          else remainingFillableTakerAmount (metaData o) in
        let minOf' :=
          arraySet minOf makerIndex
            (minus remainingMakerMinOfBalancesOrAllowances implied) in
        Ok {| extendedOrder := withRemaining o remaining;
              minOfBalancesOrAllowances := minOf' |}
      else
        Ok {| extendedOrder := withRemaining o (of_Z 0);
              minOfBalancesOrAllowances := minOf |}
  end.

(** *** getOrderBookAsync *)

(** One [bidApiOrders.map(...)] or [askApiOrders.map(...)] pass: the
    ledger is threaded from order to order, and an order whose extended
    version passes the filter is pushed onto [result]. *)
Fixpoint foldOrders (mkrs mkrTokens : list string) (req : OrderbookPriceRequest)
    (minOf : list BigNumber) (result : list SRAOrder) (orders : list SRAOrder)
  : Result (list BigNumber * list SRAOrder) :=
  match orders with
  | [] => Ok (minOf, result)
  | o :: rest =>
      try! fillableOrder := getFillableOrder mkrs mkrTokens minOf o in
      foldOrders mkrs mkrTokens req
        (minOfBalancesOrAllowances fillableOrder)
        (if filterOrder (extendedOrder fillableOrder) req
         then result ++ [o] else result)
        rest
  end.

Definition orderBookRequest (p n : Z) : OrderbookPriceRequest :=
  {| req_page := p;
     req_perPage := n;
     req_graphUrl := EmptyString;
     req_createdBy := EmptyString;
     req_taker := NULL_ADDRESS;
     req_feeRecipient := NULL_ADDRESS;
     req_takerTokenFee := -1;
     req_threshold := 0 |}.

(** [getOrderBookAsync], as a function of what its two collaborators
    return: the ranked fresh orders of [getSignedOrderEntities] and the
    array answered by [getMinOfBalancesOrAllowances]. *)
Definition getOrderBookAsync (p n : Z)
    (bidApiOrders askApiOrders : list SRAOrder)
    (oracle : list BigNumber) : Result OrderbookResponse :=
  let bidMakerInfo := getMakerInfo bidApiOrders in
  let askMakerInfo := getMakerInfo askApiOrders in
  let mkrs := ([] ++ makers bidMakerInfo) ++ makers askMakerInfo in
  let mkrTokens := ([] ++ makerTokens bidMakerInfo) ++ makerTokens askMakerInfo in
  let req := orderBookRequest p n in
  try! afterBids := foldOrders mkrs mkrTokens req oracle [] bidApiOrders in
  try! afterAsks := foldOrders mkrs mkrTokens req (fst afterBids) [] askApiOrders in
  Ok {| bids := paginate (snd afterBids) p n;
        asks := paginate (snd afterAsks) p n |}.

(** *** getPricesAsync *)

(** One [while (count < list.length)] scan: stop at the first order whose
    extended version passes the filter. *)
Fixpoint scanBest (mkrs mkrTokens : list string) (req : OrderbookPriceRequest)
    (minOf : list BigNumber) (orders : list SRAOrder)
  : Result (list BigNumber * option OrderbookPriceResponse) :=
  match orders with
  | [] => Ok (minOf, None)
  | o :: rest =>
      try! fillableOrder := getFillableOrder mkrs mkrTokens minOf o in
      if filterOrder (extendedOrder fillableOrder) req then
        try! best := getBidOrAskFormat o in
        Ok (minOfBalancesOrAllowances fillableOrder, Some best)
      else
        scanBest mkrs mkrTokens req (minOfBalancesOrAllowances fillableOrder) rest
  end.

(** The [for (let i = 0; i < pools.length; i++)] loop. *)
Fixpoint scanPools (mkrs mkrTokens : list string) (req : OrderbookPriceRequest)
    (minOf : list BigNumber) (result : list PriceRecord) (pools : list Pool)
  : Result (list BigNumber * list PriceRecord) :=
  match pools with
  | [] => Ok (minOf, result)
  | pool :: rest =>
      try! bestBid := scanBest mkrs mkrTokens req minOf (pool_bids pool) in
      try! bestAsk := scanBest mkrs mkrTokens req (fst bestBid) (pool_asks pool) in
      try! base := getAddress (baseToken pool) in
      try! quote := getAddress (quoteToken pool) in
      scanPools mkrs mkrTokens req (fst bestAsk)
        (result ++ [{| price_baseToken := base;
                       price_quoteToken := quote;
                       bid := snd bestBid;
                       ask := snd bestAsk |}])
        rest
  end.

(** The maker arrays collected over the pools; each pool appends its bids
    and then its asks in one step, so the two arrays stay aligned.  The
    pools append as their queries complete, taken here in the order of the
    list. *)
Fixpoint collectMakers (pools : list Pool) (acc : MakerInfoType) : MakerInfoType :=
  match pools with
  | [] => acc
  | pool :: rest =>
      let bidMakerInfo := getMakerInfo (pool_bids pool) in
      let askMakerInfo := getMakerInfo (pool_asks pool) in
      collectMakers rest
        {| makers := (makers acc ++ makers bidMakerInfo) ++ makers askMakerInfo;
           makerTokens :=
             (makerTokens acc ++ makerTokens bidMakerInfo)
               ++ makerTokens askMakerInfo |}
  end.

(** [getPricesAsync], as a function of the pools with their ranked orders
    and of the array answered by [getMinOfBalancesOrAllowances]. *)
Definition getPricesAsync (req : OrderbookPriceRequest) (pools : list Pool)
    (oracle : list BigNumber) : Result (PaginatedCollection PriceRecord) :=
  let info := collectMakers pools {| makers := []; makerTokens := [] |} in
  try! scanned := scanPools (makers info) (makerTokens info) req oracle [] pools in
  Ok (paginate (snd scanned) 1 (req_perPage req)).

(** *** getOrdersAsync and getBatchOrdersAsync *)

(** A [where] subclause over the recognised columns: equality on [maker]
    and [taker] when present, the conjunction of the equalities on the
    other columns, and the bound on the [expiry] column, which the
    expiration check overwrites.  Rows are shown already deserialised. *)
Record FieldFilter : Type := {
  where_maker : option string;
  where_taker : option string;
  where_others : SRAOrder -> bool;
  where_minExpiry : option Z
}.

Definition optionHolds {A : Type} (c : option A) (p : A -> bool) : bool :=
  match c with
  | None => true
  | Some a => p a
  end.

(** [MoreThanOrEqual(v)] on the [expiry] column. *)
Definition MoreThanOrEqual (v : Z) (o : SRAOrder) : bool :=
  gte (expiry (order o)) (of_Z v).

(** The subclause without its [expiry] part. *)
Definition satisfiesColumns (f : FieldFilter) (o : SRAOrder) : bool :=
  optionHolds (where_maker f) (fun m => String.eqb (maker (order o)) m)
  && optionHolds (where_taker f) (fun t => String.eqb (taker (order o)) t)
  && where_others f o.

Definition satisfies (f : FieldFilter) (o : SRAOrder) : bool :=
  satisfiesColumns f o
  && optionHolds (where_minExpiry f) (fun v => MoreThanOrEqual v o).

(** [Math.floor(Date.now() / ONE_SECOND_MS) + SRA_ORDER_EXPIRATION_BUFFER_SECONDS] *)
Definition minExpiryTime (dateNow : Z) : Z :=
  dateNow / ONE_SECOND_MS + SRA_ORDER_EXPIRATION_BUFFER_SECONDS.

(** [filters]: one subclause, or two when a trader is given. *)
Definition traderFilters (orderFilter : FieldFilter) (trader : option string)
  : list FieldFilter :=
  match trader with
  | Some t =>
      if String.eqb t EmptyString then [orderFilter]
      else
        [ {| where_maker := Some t;
             where_taker := where_taker orderFilter;
             where_others := where_others orderFilter;
             where_minExpiry := where_minExpiry orderFilter |};
          {| where_maker := where_maker orderFilter;
             where_taker := Some t;
             where_others := where_others orderFilter;
             where_minExpiry := where_minExpiry orderFilter |} ]
  | None => [orderFilter]
  end.

(** [filtersWithExpirationCheck] *)
Definition withExpirationCheck (dateNow : Z) (fs : list FieldFilter)
  : list FieldFilter :=
  map (fun f => {| where_maker := where_maker f;
                   where_taker := where_taker f;
                   where_others := where_others f;
                   where_minExpiry := Some (minExpiryTime dateNow) |}) fs.

(** The rows of the signed order table that the query of [getOrdersAsync]
    retains: those satisfying one of the subclauses of
    [filtersWithExpirationCheck].  The validation of the request, the
    paging of the query and the join with the persistent orders, which
    carries no expiry check, are left out. *)
Definition getOrdersAsync_retained (dateNow : Z) (orderFilter : FieldFilter)
    (trader : option string) (rows : list SRAOrder) : list SRAOrder :=
  let filtersWithExpirationCheck :=
    withExpirationCheck dateNow (traderFilters orderFilter trader) in
  List.filter
    (fun o => existsb (fun f => satisfies f o) filtersWithExpirationCheck)
    rows.

(** Modelled from the spec: [orderUtils.groupByFreshness] is not among the
    sources.  An order is expired if [expiry <= now + buffer], [now] in
    seconds. *)
Definition isExpired (now buffer : Z) (o : SRAOrder) : bool :=
  lte (expiry (order o)) (of_Z (now + buffer)).

Definition groupByFreshness (now : Z) (apiOrders : list SRAOrder) (buffer : Z)
  : list SRAOrder * list SRAOrder :=
  (List.filter (fun o => negb (isExpired now buffer o)) apiOrders,
   List.filter (fun o => isExpired now buffer o) apiOrders).

(** [getBatchOrdersAsync] on the rows its query fetched: the orders handed
    to [alertOnExpiredOrders], and the page returned. *)
Definition getBatchOrdersAsync (now : Z) (p n : Z) (apiOrders : list SRAOrder)
  : list SRAOrder * PaginatedCollection SRAOrder :=
  let '(fresh, expired) :=
    groupByFreshness now apiOrders SRA_ORDER_EXPIRATION_BUFFER_SECONDS in
  (expired, paginate fresh p n).

(** *** Vocabulary of the statements *)

(** [x < 0]; NaN is not negative. *)
Definition isNegative (x : BigNumber) : bool :=
  match comparedTo x (of_Z 0) with Some Lt => true | _ => false end.

(** The comparison made by the index search, against the lower-cased
    maker [km] and maker token [kt] of an order. *)
Definition pairMatches (km kt : string) (mkr tok : string) : bool :=
  String.eqb (toLowerCase mkr) km && String.eqb (toLowerCase tok) kt.

(** The pair [(km, kt)] occurs at index [i] of the two arrays. *)
Definition occursAt (mkrs mkrTokens : list string) (km kt : string) (i : nat)
  : Prop :=
  exists mkr tok,
    mkrs !! i = Some mkr /\ mkrTokens !! i = Some tok
    /\ pairMatches km kt mkr tok = true.

(** [i] is the last index at which the pair occurs. *)
Definition lastOccurrence (mkrs mkrTokens : list string) (km kt : string)
    (i : nat) : Prop :=
  occursAt mkrs mkrTokens km kt i
  /\ forall j, occursAt mkrs mkrTokens km kt j -> (j <= i)%nat.

(** The key of an order in the collateral ledger. *)
Definition makerKey (o : SRAOrder) : string := toLowerCase (maker (order o)).
Definition tokenKey (o : SRAOrder) : string := toLowerCase (makerToken (order o)).

(** What [getFillableOrder] makes of an order that reads [available]:
    its new remaining fillable taker amount. *)
Definition adjustedRemaining (o : SRAOrder) (available : BigNumber) : BigNumber :=
  if gt available (of_Z 0) then
    if gt (remainingFillableMakerAmount o) available
    then clippedTakerAmount o available
    else remainingFillableTakerAmount (metaData o)
  else of_Z 0.

(** No entry of the ledger is negative. *)
Definition nonNegativeLedger (minOf : list BigNumber) : Prop :=
  Forall (fun x => isNegative x = false) minOf.

(** The order is fully covered by the entry it reads: its implied maker
    amount does not exceed that entry, so the order is not clipped. *)
Definition coveredBy (mkrs mkrTokens : list string) (minOf : list BigNumber)
    (o : SRAOrder) : bool :=
  match findMakerIndex mkrs mkrTokens o 0 (-1) with
  | Ok r =>
      match arrayGet minOf r with
      | Some available => negb (gt (remainingFillableMakerAmount o) available)
      | None => true
      end
  | Throw _ => true
  end.

(** Every order of the list is covered by the ledger as it stands when
    the order's turn comes. *)
Fixpoint eachCovered (mkrs mkrTokens : list string) (minOf : list BigNumber)
    (orders : list SRAOrder) : bool :=
  match orders with
  | [] => true
  | o :: rest =>
      coveredBy mkrs mkrTokens minOf o
      && match getFillableOrder mkrs mkrTokens minOf o with
         | Ok f => eachCovered mkrs mkrTokens (minOfBalancesOrAllowances f) rest
         | Throw _ => true
         end
  end.

(** [0 <= remainingFillableTakerAmount <= takerAmount], on an order whose
    taker amount is a whole number. *)
Definition withinTakerAmount (o : SRAOrder) : Prop :=
  exists (r : Q) (ta : Z),
    remainingFillableTakerAmount (metaData o) = BNfin r
    /\ takerAmount (order o) = of_Z ta
    /\ (0 <= r <= inject_Z ta)%Q.

(** The extended copy of [o] passed the filter at some state of the
    ledger. *)
Definition passedFilter (mkrs mkrTokens : list string)
    (req : OrderbookPriceRequest) (o : SRAOrder) : Prop :=
  exists ledger f,
    getFillableOrder mkrs mkrTokens ledger o = Ok f
    /\ filterOrder (extendedOrder f) req = true.

(** [best] is the formatted record of an order of the list, taken as it
    came in, whose extended copy passed the filter. *)
Definition emittedFrom (mkrs mkrTokens : list string)
    (req : OrderbookPriceRequest) (orders : list SRAOrder)
    (best : OrderbookPriceResponse) : Prop :=
  exists o, o ∈ orders
    /\ getBidOrAskFormat o = Ok best
    /\ resp_remainingFillableTakerAmount best
       = remainingFillableTakerAmount (metaData o)
    /\ resp_takerAmount best = takerAmount (order o)
    /\ passedFilter mkrs mkrTokens req o.


(** ** Facts about BigNumber arithmetic *)

Local Open Scope Q_scope.

Lemma scale_pos (dp : nat) : 0 < scale dp.
Proof.
  unfold scale. change 0 with (inject_Z 0). rewrite <- Zlt_Qlt.
  apply Z.pow_pos_nonneg; lia.
Qed.

Lemma Qfloor_half_inject (z : Z) : Qfloor (inject_Z z + (1 # 2)) = z.
Proof.
  pose proof (Qfloor_le (inject_Z z + (1 # 2))) as Hlo.
  pose proof (Qlt_floor (inject_Z z + (1 # 2))) as Hhi.
  set (f := Qfloor (inject_Z z + (1 # 2))) in *.
  assert (inject_Z f < inject_Z (z + 1)) as H1
    by (rewrite inject_Z_plus; change (inject_Z 1) with 1; lra).
  assert (inject_Z z < inject_Z (f + 1)) as H2 by lra.
  rewrite <- Zlt_Qlt in H1, H2. lia.
Qed.

Lemma round_half_up_inject (z : Z) : round_half_up (inject_Z z) = z.
Proof.
  unfold round_half_up.
  destruct (Qle_bool 0 (inject_Z z)) eqn:E.
  - apply Qfloor_half_inject.
  - rewrite <- inject_Z_opp, Qfloor_half_inject. lia.
Qed.

Lemma round_half_up_comp (x y : Q) : x == y -> round_half_up x = round_half_up y.
Proof.
  intros H. unfold round_half_up.
  assert (Qle_bool 0 x = Qle_bool 0 y) as -> by (now rewrite H).
  assert (Qfloor (x + (1 # 2)) = Qfloor (y + (1 # 2))) as -> by (now rewrite H).
  assert (Qfloor (- x + (1 # 2)) = Qfloor (- y + (1 # 2))) as -> by (now rewrite H).
  reflexivity.
Qed.

Lemma round_half_up_mono (x y : Q) :
  x <= y -> (round_half_up x <= round_half_up y)%Z.
Proof.
  intros Hxy. unfold round_half_up.
  destruct (Qle_bool 0 x) eqn:Ex; destruct (Qle_bool 0 y) eqn:Ey.
  - apply Qfloor_resp_le. lra.
  - apply Qle_bool_iff in Ex.
    assert (~ 0 <= y) by (rewrite <- Qle_bool_iff; congruence). lra.
  - apply Qle_bool_iff in Ey.
    assert (~ 0 <= x) as Hx by (rewrite <- Qle_bool_iff; congruence).
    assert (0 <= Qfloor (- x + (1 # 2)))%Z
      by (change 0%Z with (Qfloor 0); apply Qfloor_resp_le; lra).
    assert (0 <= Qfloor (y + (1 # 2)))%Z
      by (change 0%Z with (Qfloor 0); apply Qfloor_resp_le; lra).
    lia.
  - assert (Qfloor (- y + (1 # 2)) <= Qfloor (- x + (1 # 2)))%Z
      by (apply Qfloor_resp_le; lra).
    lia.
Qed.

(** Rounding moves a value by at most one half. *)
Lemma round_half_up_error (x : Q) :
  inject_Z (round_half_up x) - (1 # 2) <= x
  /\ x <= inject_Z (round_half_up x) + (1 # 2).
Proof.
  unfold round_half_up.
  destruct (Qle_bool 0 x) eqn:E.
  - pose proof (Qfloor_le (x + (1 # 2))).
    pose proof (Qlt_floor (x + (1 # 2))) as Hhi.
    rewrite inject_Z_plus in Hhi. change (inject_Z 1) with 1 in Hhi.
    lra.
  - pose proof (Qfloor_le (- x + (1 # 2))).
    pose proof (Qlt_floor (- x + (1 # 2))) as Hhi.
    rewrite inject_Z_plus in Hhi. change (inject_Z 1) with 1 in Hhi.
    rewrite inject_Z_opp. lra.
Qed.

Lemma round_dp_mono (dp : nat) (x y : Q) :
  x <= y -> round_dp dp x <= round_dp dp y.
Proof.
  intros Hxy. unfold round_dp, Qdiv.
  pose proof (scale_pos dp) as Hs.
  apply Qmult_le_compat_r.
  - rewrite <- Zle_Qle. apply round_half_up_mono.
    apply Qmult_le_compat_r; lra.
  - apply Qlt_le_weak, Qinv_lt_0_compat, Hs.
Qed.

(** Whole numbers are left as they are, whatever the precision. *)
Lemma round_dp_inject (dp : nat) (z : Z) : round_dp dp (inject_Z z) == inject_Z z.
Proof.
  unfold round_dp, scale.
  rewrite (round_half_up_comp _ (inject_Z (z * 10 ^ Z.of_nat dp)))
    by (now rewrite inject_Z_mult).
  rewrite round_half_up_inject, inject_Z_mult.
  apply Qdiv_mult_l.
  pose proof (scale_pos dp) as Hs. unfold scale in Hs. lra.
Qed.

Lemma round_dp_nonneg (dp : nat) (x : Q) : 0 <= x -> 0 <= round_dp dp x.
Proof.
  intros Hx. rewrite <- (round_dp_inject dp 0).
  apply round_dp_mono. exact Hx.
Qed.

(** The rounded quotient is within half a unit of the last kept decimal
    place of the exact one. *)
Lemma round_dp_error (dp : nat) (x : Q) :
  round_dp dp x - (1 # 2) / scale dp <= x
  /\ x <= round_dp dp x + (1 # 2) / scale dp.
Proof.
  pose proof (scale_pos dp) as Hs.
  destruct (round_half_up_error (x * scale dp)) as [Hlo Hhi].
  unfold round_dp.
  set (n := inject_Z (round_half_up (x * scale dp))) in *.
  assert ((x * scale dp) / scale dp == x) as Hx
    by (rewrite Qdiv_mult_l; [reflexivity | lra]).
  assert (0 <= / scale dp) as Hinv
    by (apply Qlt_le_weak, Qinv_lt_0_compat, Hs).
  split.
  - apply Qle_trans with ((x * scale dp) / scale dp); [| rewrite Hx; lra].
    unfold Qdiv.
    setoid_replace (n * / scale dp - (1 # 2) * / scale dp)
      with ((n - (1 # 2)) * / scale dp) using relation Qeq by ring.
    apply Qmult_le_compat_r; assumption.
  - apply Qle_trans with ((x * scale dp) / scale dp); [rewrite Hx; lra |].
    unfold Qdiv.
    setoid_replace (n * / scale dp + (1 # 2) * / scale dp)
      with ((n + (1 # 2)) * / scale dp) using relation Qeq by ring.
    apply Qmult_le_compat_r; assumption.
Qed.

(** ** The index search *)

Local Close Scope Q_scope.

Lemma matchesAt_spec (mkrTokens : list string) (o : SRAOrder) (mkr : string)
    (index : nat) (hit : bool) :
  matchesAt mkrTokens o mkr index = Ok hit ->
  (hit = true ->
     exists tok, mkrTokens !! index = Some tok
                 /\ pairMatches (makerKey o) (tokenKey o) mkr tok = true)
  /\ (hit = false ->
      forall tok, mkrTokens !! index = Some tok ->
                  pairMatches (makerKey o) (tokenKey o) mkr tok = false).
Proof.
  unfold matchesAt, pairMatches, makerKey, tokenKey.
  destruct (String.eqb (toLowerCase mkr) (toLowerCase (maker (order o)))) eqn:Em.
  - destruct (mkrTokens !! index) as [tok |] eqn:Et; [| discriminate].
    intros [= <-]. split.
    + intros Hhit. exists tok. now rewrite Hhit.
    + intros Hhit tok' [= <-]. exact Hhit.
  - intros [= <-]. split; [discriminate | reflexivity].
Qed.

Lemma matchesAt_defined (mkrTokens : list string) (o : SRAOrder) (mkr : string)
    (index : nat) :
  (index < length mkrTokens)%nat ->
  exists hit, matchesAt mkrTokens o mkr index = Ok hit.
Proof.
  intros Hlt. unfold matchesAt.
  destruct (lookup_lt_is_Some_2 mkrTokens index Hlt) as [tok ->].
  destruct (String.eqb _ _); eauto.
Qed.

Lemma matchesAt_error (mkrTokens : list string) (o : SRAOrder) (mkr : string)
    (index : nat) (e : Error) :
  matchesAt mkrTokens o mkr index = Throw e -> e = TypeError.
Proof.
  unfold matchesAt. destruct (String.eqb _ _); [| discriminate].
  destruct (mkrTokens !! index); [discriminate | now intros [= <-]].
Qed.

(** The search returns its initial value when nothing matches, and
    otherwise the last matching position. *)
Lemma findMakerIndex_spec (mkrTokens : list string) (o : SRAOrder)
    (rest : list string) :
  forall (index : nat) (acc r : Z),
    findMakerIndex rest mkrTokens o index acc = Ok r ->
    (r = acc
     /\ forall k mkr tok,
          rest !! k = Some mkr -> mkrTokens !! (index + k)%nat = Some tok ->
          pairMatches (makerKey o) (tokenKey o) mkr tok = false)
    \/ (exists k mkr tok,
          r = Z.of_nat (index + k)
          /\ rest !! k = Some mkr /\ mkrTokens !! (index + k)%nat = Some tok
          /\ pairMatches (makerKey o) (tokenKey o) mkr tok = true
          /\ forall k' mkr' tok',
               (k < k')%nat -> rest !! k' = Some mkr' ->
               mkrTokens !! (index + k')%nat = Some tok' ->
               pairMatches (makerKey o) (tokenKey o) mkr' tok' = false).
Proof.
  induction rest as [| mkr rest IH]; intros index acc r; simpl.
  - intros [= <-]. left. split; [reflexivity |]. intros k ? ? Hk. discriminate Hk.
  - destruct (matchesAt mkrTokens o mkr index) as [hit | e] eqn:Ehit;
      simpl; [| discriminate].
    destruct (matchesAt_spec _ _ _ _ _ Ehit) as [Hyes Hno].
    intros Hrun. destruct (IH _ _ _ Hrun) as [[-> Hnone] | Hsome].
    + destruct hit.
      * right. destruct (Hyes eq_refl) as (tok & Htok & Hm).
        exists 0%nat, mkr, tok. rewrite Nat.add_0_r.
        repeat split; try assumption.
        intros [| k'] mkr' tok' Hlt Hk' Ht'; [lia |].
        simpl in Hk'. apply (Hnone k' mkr' tok' Hk').
        now replace (S index + k')%nat with (index + S k')%nat by lia.
      * left. split; [reflexivity |].
        intros [| k] mkr' tok' Hk Ht.
        -- simpl in Hk. injection Hk as <-. rewrite Nat.add_0_r in Ht.
           now apply Hno.
        -- simpl in Hk. apply (Hnone k mkr' tok' Hk).
           now replace (S index + k)%nat with (index + S k)%nat by lia.
    + right. destruct Hsome as (k & mkr' & tok' & -> & Hk & Ht & Hm & Hlater).
      exists (S k), mkr', tok'.
      replace (index + S k)%nat with (S index + k)%nat by lia.
      repeat split; try assumption.
      intros [| k'] mkr'' tok'' Hlt Hk' Ht'; [lia |].
      simpl in Hk'. apply (Hlater k' mkr'' tok''); [lia | assumption |].
      now replace (S index + k')%nat with (index + S k')%nat by lia.
Qed.

Lemma findMakerIndex_defined (mkrTokens : list string) (o : SRAOrder)
    (rest : list string) :
  forall (index : nat) (acc : Z),
    (index + length rest <= length mkrTokens)%nat ->
    exists r, findMakerIndex rest mkrTokens o index acc = Ok r.
Proof.
  induction rest as [| mkr rest IH]; intros index acc Hlen; simpl in *.
  - eauto.
  - destruct (matchesAt_defined mkrTokens o mkr index) as [hit ->]; [lia |].
    simpl. apply IH. lia.
Qed.

Lemma findMakerIndex_error (mkrTokens : list string) (o : SRAOrder)
    (rest : list string) :
  forall (index : nat) (acc : Z) (e : Error),
    findMakerIndex rest mkrTokens o index acc = Throw e -> e = TypeError.
Proof.
  induction rest as [| mkr rest IH]; intros index acc e; simpl.
  - discriminate.
  - destruct (matchesAt mkrTokens o mkr index) as [hit | e'] eqn:Ehit; simpl.
    + apply IH.
    + intros [= <-]. eapply matchesAt_error, Ehit.
Qed.

(** With aligned arrays the search finds the last occurrence of the
    order's pair. *)
Lemma findMakerIndex_last (mkrs mkrTokens : list string) (o : SRAOrder) (i : nat) :
  (length mkrs <= length mkrTokens)%nat ->
  lastOccurrence mkrs mkrTokens (makerKey o) (tokenKey o) i ->
  findMakerIndex mkrs mkrTokens o 0 (-1) = Ok (Z.of_nat i).
Proof.
  intros Hlen [Hocc Hlast].
  destruct (findMakerIndex_defined mkrTokens o mkrs 0 (-1)) as [r Hr]; [lia |].
  rewrite Hr. f_equal.
  destruct (findMakerIndex_spec _ _ _ _ _ _ Hr) as [[_ Hnone] | Hsome].
  - destruct Hocc as (mkr & tok & Hm & Ht & Hp).
    rewrite (Hnone i mkr tok Hm Ht) in Hp. discriminate.
  - destruct Hsome as (k & mkr & tok & -> & Hk & Ht & Hp & Hlater).
    simpl in *.
    assert (k <= i)%nat by (apply Hlast; exists mkr, tok; auto).
    destruct (Nat.eq_dec k i) as [-> | Hne]; [reflexivity |].
    destruct Hocc as (mkr' & tok' & Hm' & Ht' & Hp').
    rewrite (Hlater i mkr' tok') in Hp'; [discriminate | lia | assumption ..].
Qed.

(** Without any occurrence the search, if it returns, leaves [-1]. *)
Lemma findMakerIndex_absent (mkrs mkrTokens : list string) (o : SRAOrder) (r : Z) :
  (forall i, ~ occursAt mkrs mkrTokens (makerKey o) (tokenKey o) i) ->
  findMakerIndex mkrs mkrTokens o 0 (-1) = Ok r -> r = -1.
Proof.
  intros Habs Hr.
  destruct (findMakerIndex_spec _ _ _ _ _ _ Hr) as [[-> _] | Hsome];
    [reflexivity |].
  destruct Hsome as (k & mkr & tok & _ & Hk & Ht & Hp & _).
  exfalso. apply (Habs k). exists mkr, tok. auto.
Qed.

(** ** Comparisons of finite values *)

Lemma gt_fin (p q : Q) : gt (BNfin p) (BNfin q) = true <-> (q < p)%Q.
Proof.
  unfold gt; simpl. rewrite Qgt_alt.
  destruct (p ?= q)%Q; split; congruence.
Qed.

Lemma gt_fin_false (p q : Q) : gt (BNfin p) (BNfin q) = false <-> (p <= q)%Q.
Proof.
  unfold gt; simpl. rewrite Qle_alt.
  destruct (p ?= q)%Q; split; congruence.
Qed.

Lemma lte_fin (p q : Q) : lte (BNfin p) (BNfin q) = true <-> (p <= q)%Q.
Proof.
  unfold lte; simpl. rewrite Qle_alt.
  destruct (p ?= q)%Q; split; congruence.
Qed.

Lemma gte_fin (p q : Q) : gte (BNfin p) (BNfin q) = true <-> (q <= p)%Q.
Proof.
  unfold gte; simpl. rewrite Qge_alt.
  destruct (p ?= q)%Q; split; congruence.
Qed.

Lemma isNegative_fin (p : Q) : isNegative (BNfin p) = true <-> (p < 0)%Q.
Proof.
  unfold isNegative; simpl. change (inject_Z 0) with 0%Q. rewrite Qlt_alt.
  destruct (p ?= 0)%Q; split; congruence.
Qed.

Lemma Qzero_b_inject (z : Z) : z <> 0 -> Qzero_b (inject_Z z) = false.
Proof.
  intros Hz. unfold Qzero_b. apply not_true_is_false. intros H.
  apply Qeq_bool_iff in H. apply Hz.
  change 0%Q with (inject_Z 0) in H. now apply (inject_Z_injective z 0).
Qed.

(** ** getFillableOrder, step by step *)

(** The step at the last occurrence [i] of the order's pair, reading
    [available] there. *)
Lemma getFillableOrder_at (mkrs mkrTokens : list string)
    (minOf : list BigNumber) (o : SRAOrder) (i : nat) (available : BigNumber) :
  (length mkrs <= length mkrTokens)%nat ->
  lastOccurrence mkrs mkrTokens (makerKey o) (tokenKey o) i ->
  minOf !! i = Some available ->
  getFillableOrder mkrs mkrTokens minOf o
  = Ok {| extendedOrder := withRemaining o (adjustedRemaining o available);
          minOfBalancesOrAllowances :=
            if gt available (of_Z 0)
            then <[ i := minus available (remainingFillableMakerAmount o) ]> minOf
            else minOf |}.
Proof.
  intros Hlen Hlast Hread. unfold getFillableOrder.
  rewrite (findMakerIndex_last _ _ _ _ Hlen Hlast). simpl.
  unfold arrayGet, arraySet, adjustedRemaining.
  replace (Z.of_nat i <? 0) with false by (symmetry; apply Z.ltb_ge; lia).
  rewrite Nat2Z.id, Hread.
  destruct (gt available (of_Z 0)); reflexivity.
Qed.

(** Whenever the step returns, it has read some entry [i] and acted on
    it as above. *)
Lemma getFillableOrder_inv (mkrs mkrTokens : list string)
    (minOf : list BigNumber) (o : SRAOrder) (f : FillableOrderType) :
  getFillableOrder mkrs mkrTokens minOf o = Ok f ->
  exists (i : nat) (available : BigNumber),
    findMakerIndex mkrs mkrTokens o 0 (-1) = Ok (Z.of_nat i)
    /\ minOf !! i = Some available
    /\ extendedOrder f = withRemaining o (adjustedRemaining o available)
    /\ minOfBalancesOrAllowances f
       = if gt available (of_Z 0)
         then <[ i := minus available (remainingFillableMakerAmount o) ]> minOf
         else minOf.
Proof.
  unfold getFillableOrder.
  destruct (findMakerIndex mkrs mkrTokens o 0 (-1)) as [r | e]; simpl;
    [| discriminate].
  unfold arrayGet, arraySet, adjustedRemaining.
  destruct (r <? 0) eqn:Er; [discriminate |].
  apply Z.ltb_ge in Er.
  destruct (minOf !! Z.to_nat r) as [available |] eqn:Hread; [| discriminate].
  intros Hf. exists (Z.to_nat r), available.
  rewrite Z2Nat.id by lia. split; [reflexivity |]. split; [exact Hread |].
  destruct (gt available (of_Z 0)); injection Hf as <-; split; reflexivity.
Qed.

(** The only failure of the step is a read on [undefined]. *)
Lemma getFillableOrder_error (mkrs mkrTokens : list string)
    (minOf : list BigNumber) (o : SRAOrder) (e : Error) :
  getFillableOrder mkrs mkrTokens minOf o = Throw e -> e = TypeError.
Proof.
  unfold getFillableOrder.
  destruct (findMakerIndex mkrs mkrTokens o 0 (-1)) as [r | e'] eqn:Efind; simpl.
  - destruct (arrayGet minOf r); [| now intros [= <-]].
    destruct (gt _ _); discriminate.
  - intros [= <-]. eapply findMakerIndex_error, Efind.
Qed.

(** The index found by the search is the last occurrence of the pair. *)
Lemma lastOccurrence_found (mkrs mkrTokens : list string) (o : SRAOrder) (i : nat) :
  findMakerIndex mkrs mkrTokens o 0 (-1) = Ok (Z.of_nat i) ->
  lastOccurrence mkrs mkrTokens (makerKey o) (tokenKey o) i.
Proof.
  intros Hr.
  destruct (findMakerIndex_spec _ _ _ _ _ _ Hr) as [[Hneg _] | Hsome]; [lia |].
  destruct Hsome as (k & mkr & tok & Hk & Hm & Ht & Hp & Hlater).
  simpl in *. apply Nat2Z.inj in Hk. subst k. split.
  - exists mkr, tok. auto.
  - intros j (mkr' & tok' & Hm' & Ht' & Hp').
    destruct (le_lt_dec j i) as [Hle | Hlt]; [exact Hle |].
    rewrite (Hlater j mkr' tok' Hlt Hm' Ht') in Hp'. discriminate.
Qed.

(** Drawing more than a positive entry holds leaves it negative. *)
Lemma minus_negative (available implied : BigNumber) :
  gt available (of_Z 0) = true ->
  gt implied available = true ->
  isNegative (minus available implied) = true.
Proof.
  unfold of_Z.
  destruct available as [p | [] |], implied as [q | [] |]; try discriminate;
    try reflexivity.
  rewrite !gt_fin. intros Hp Hq. simpl. apply isNegative_fin. lra.
Qed.

(** Drawing no more than a positive entry holds leaves it not negative. *)
Lemma minus_not_negative (available implied : BigNumber) :
  gt available (of_Z 0) = true ->
  gt implied available = false ->
  isNegative (minus available implied) = false.
Proof.
  unfold of_Z.
  destruct available as [p | [] |], implied as [q | [] |]; try discriminate;
    try reflexivity.
  rewrite gt_fin, gt_fin_false. intros Hp Hq. simpl.
  apply not_true_is_false. rewrite isNegative_fin. lra.
Qed.

(** ** The claims on getFillableOrder *)


(** C10.  When the pair of an order occurs at several indices of the
    maker arrays, [getFillableOrder] reads and decrements the entry at
    the last of them; every other entry, the duplicates of the pair
    included, is left as it was.  The index depends on the order only
    through its lower-cased maker and maker token, so all orders of one
    pair draw on the same slot. *)
Theorem getFillableOrder_uses_last_index
    (mkrs mkrTokens : list string) (minOf : list BigNumber)
    (km kt : string) (i : nat) (available : BigNumber) :
  (length mkrs <= length mkrTokens)%nat ->
  lastOccurrence mkrs mkrTokens km kt i ->
  minOf !! i = Some available ->
  forall o : SRAOrder,
    makerKey o = km -> tokenKey o = kt ->
    exists f,
      getFillableOrder mkrs mkrTokens minOf o = Ok f
      /\ extendedOrder f = withRemaining o (adjustedRemaining o available)
      /\ minOfBalancesOrAllowances f
         = (if gt available (of_Z 0)
            then <[ i := minus available (remainingFillableMakerAmount o) ]> minOf
            else minOf)
      /\ (forall j, j <> i -> minOfBalancesOrAllowances f !! j = minOf !! j)
      /\ length (minOfBalancesOrAllowances f) = length minOf.
Proof.
  intros Hlen Hlast Hread o <- <-.
  eexists. split; [apply (getFillableOrder_at _ _ _ _ _ _ Hlen Hlast Hread) |].
  simpl. repeat split.
  - intros j Hj. destruct (gt available (of_Z 0)); [| reflexivity].
    apply list_lookup_insert_ne. congruence.
  - destruct (gt available (of_Z 0)); [apply length_insert | reflexivity].
Qed.

(** The arrays built by [getMakerInfo] name the pair of every order they
    were built from. *)
Lemma getMakerInfo_occurs (orders : list SRAOrder) (o : SRAOrder) :
  o ∈ orders ->
  exists i,
    occursAt (makers (getMakerInfo orders)) (makerTokens (getMakerInfo orders))
      (makerKey o) (tokenKey o) i.
Proof.
  intros Hin. apply list_elem_of_lookup in Hin as [i Hi].
  exists i, (maker (order o)), (makerToken (order o)). simpl.
  rewrite !list_lookup_fmap, Hi. simpl. repeat split.
  unfold pairMatches, makerKey, tokenKey. now rewrite !String.eqb_refl.
Qed.

(** C5 (as the code has it).  For an order whose pair occurs at no index
    of the maker arrays, [getFillableOrder] does not return: the search
    leaves [makerIndex] at [-1], the read of the ledger yields
    [undefined], and the call raises.  The arrays that the aggregators
    pass are built from the very orders they fold, so there every
    order's pair does occur. *)
Theorem getFillableOrder_absent_pair_raises
    (mkrs mkrTokens : list string) (minOf : list BigNumber) (o : SRAOrder) :
  (forall i, ~ occursAt mkrs mkrTokens (makerKey o) (tokenKey o) i) ->
  getFillableOrder mkrs mkrTokens minOf o = Throw TypeError
  /\ forall orders : list SRAOrder,
      o ∈ orders ->
      exists i,
        occursAt (makers (getMakerInfo orders))
          (makerTokens (getMakerInfo orders)) (makerKey o) (tokenKey o) i.
Proof.
  intros Habs. split; [| intros orders; apply getMakerInfo_occurs].
  unfold getFillableOrder.
  destruct (findMakerIndex mkrs mkrTokens o 0 (-1)) as [r | e] eqn:Efind; simpl.
  - rewrite (findMakerIndex_absent _ _ _ _ Habs Efind). reflexivity.
  - now rewrite (findMakerIndex_error _ _ _ _ _ _ Efind).
Qed.

(** ** The ledger along a fold *)

Lemma arrayGet_of_nat {A : Type} (arr : list A) (i : nat) :
  arrayGet arr (Z.of_nat i) = arr !! i.
Proof.
  unfold arrayGet.
  replace (Z.of_nat i <? 0) with false by (symmetry; apply Z.ltb_ge; lia).
  now rewrite Nat2Z.id.
Qed.

Lemma getFillableOrder_keeps_nonNegative (mkrs mkrTokens : list string)
    (minOf : list BigNumber) (o : SRAOrder) (f : FillableOrderType) :
  nonNegativeLedger minOf ->
  coveredBy mkrs mkrTokens minOf o = true ->
  getFillableOrder mkrs mkrTokens minOf o = Ok f ->
  nonNegativeLedger (minOfBalancesOrAllowances f).
Proof.
  intros Hinv Hcov Hstep.
  destruct (getFillableOrder_inv _ _ _ _ _ Hstep)
    as (i & available & Hfind & Hread & _ & ->).
  unfold coveredBy in Hcov.
  rewrite Hfind, arrayGet_of_nat, Hread in Hcov.
  apply negb_true_iff in Hcov.
  destruct (gt available (of_Z 0)) eqn:Hpos; [| exact Hinv].
  apply Forall_insert; [exact Hinv |].
  now apply minus_not_negative.
Qed.

Lemma foldOrders_keeps_nonNegative (mkrs mkrTokens : list string)
    (req : OrderbookPriceRequest) (orders : list SRAOrder) :
  forall (minOf : list BigNumber) (result : list SRAOrder)
         (final : list BigNumber) (res : list SRAOrder),
    nonNegativeLedger minOf ->
    eachCovered mkrs mkrTokens minOf orders = true ->
    foldOrders mkrs mkrTokens req minOf result orders = Ok (final, res) ->
    nonNegativeLedger final.
Proof.
  induction orders as [| o rest IH]; intros minOf result final res Hinv Hcov; simpl.
  - now intros [= <- _].
  - simpl in Hcov. apply andb_true_iff in Hcov as [Hcov Hrest].
    destruct (getFillableOrder mkrs mkrTokens minOf o) as [f | e] eqn:Hstep;
      simpl; [| discriminate].
    apply IH; [| exact Hrest].
    eapply getFillableOrder_keeps_nonNegative; eassumption.
Qed.

Lemma scanBest_keeps_nonNegative (mkrs mkrTokens : list string)
    (req : OrderbookPriceRequest) (orders : list SRAOrder) :
  forall (minOf final : list BigNumber) (best : option OrderbookPriceResponse),
    nonNegativeLedger minOf ->
    eachCovered mkrs mkrTokens minOf orders = true ->
    scanBest mkrs mkrTokens req minOf orders = Ok (final, best) ->
    nonNegativeLedger final.
Proof.
  induction orders as [| o rest IH]; intros minOf final best Hinv Hcov; simpl.
  - now intros [= <- _].
  - simpl in Hcov. apply andb_true_iff in Hcov as [Hcov Hrest].
    destruct (getFillableOrder mkrs mkrTokens minOf o) as [f | e] eqn:Hstep;
      simpl; [| discriminate].
    pose proof (getFillableOrder_keeps_nonNegative _ _ _ _ _ Hinv Hcov Hstep).
    destruct (filterOrder (extendedOrder f) req).
    + destruct (getBidOrAskFormat o); simpl; [| discriminate].
      now intros [= <- _].
    + now apply IH.
Qed.

(** The invariant of the ledger holds along a fold of [getOrderBookAsync]
    and along a best-price scan of [getPricesAsync] as long as every order
    processed so far was fully covered by the entry it read.  An order that
    is clipped (its implied maker amount exceeds the positive entry it
    reads) leaves that entry negative. *)
Lemma ledger_not_negative_while_covered
    (mkrs mkrTokens : list string) (req : OrderbookPriceRequest)
    (minOf : list BigNumber) (orders : list SRAOrder) :
  nonNegativeLedger minOf ->
  eachCovered mkrs mkrTokens minOf orders = true ->
  (forall result final res,
      foldOrders mkrs mkrTokens req minOf result orders = Ok (final, res) ->
      nonNegativeLedger final)
  /\ (forall final best,
        scanBest mkrs mkrTokens req minOf orders = Ok (final, best) ->
        nonNegativeLedger final)
  /\ (forall o f i available,
        getFillableOrder mkrs mkrTokens minOf o = Ok f ->
        findMakerIndex mkrs mkrTokens o 0 (-1) = Ok (Z.of_nat i) ->
        minOf !! i = Some available ->
        gt available (of_Z 0) = true ->
        gt (remainingFillableMakerAmount o) available = true ->
        exists x, minOfBalancesOrAllowances f !! i = Some x
                  /\ isNegative x = true).
Proof.
  intros Hinv Hcov. split; [| split].
  - intros result final res. now apply foldOrders_keeps_nonNegative.
  - intros final best. now apply scanBest_keeps_nonNegative.
  - intros o f i available Hstep Hfind Hread Hpos Hclip.
    destruct (getFillableOrder_inv _ _ _ _ _ Hstep)
      as (i' & available' & Hfind' & Hread' & _ & ->).
    rewrite Hfind in Hfind'. injection Hfind' as Hi. apply Nat2Z.inj in Hi.
    subst i'. rewrite Hread in Hread'. injection Hread' as <-.
    rewrite Hpos. eexists. split.
    + apply list_lookup_insert_eq. eapply lookup_lt_Some, Hread.
    + now apply minus_negative.
Qed.

(** ** Bounds on the adjusted amount *)

Local Open Scope Q_scope.

(** The implied maker amount of an order with whole amounts. *)
Lemma remainingFillableMakerAmount_fin (o : SRAOrder) (ma ta : Z) (r : Q) :
  makerAmount (order o) = of_Z ma ->
  takerAmount (order o) = of_Z ta ->
  remainingFillableTakerAmount (metaData o) = BNfin r ->
  ta <> 0%Z ->
  remainingFillableMakerAmount o
  = BNfin (round_dp DECIMAL_PLACES (inject_Z ma * r / inject_Z ta)).
Proof.
  intros Hma Hta Hr Hnz. unfold remainingFillableMakerAmount.
  rewrite Hma, Hta, Hr. unfold of_Z. simpl.
  now rewrite Qzero_b_inject.
Qed.

(** The clipped taker amount of an order with whole amounts. *)
Lemma clippedTakerAmount_fin (o : SRAOrder) (ma ta : Z) (a : Q) :
  makerAmount (order o) = of_Z ma ->
  takerAmount (order o) = of_Z ta ->
  ma <> 0%Z ->
  clippedTakerAmount o (BNfin a)
  = BNfin (round_dp DECIMAL_PLACES (a * inject_Z ta / inject_Z ma)).
Proof.
  intros Hma Hta Hnz. unfold clippedTakerAmount.
  rewrite Hma, Hta. unfold of_Z. simpl.
  now rewrite Qzero_b_inject.
Qed.

Lemma adjustedRemaining_bounds (o : SRAOrder) (ma ta : Z) (r : Q)
    (available : BigNumber) :
  makerAmount (order o) = of_Z ma ->
  takerAmount (order o) = of_Z ta ->
  remainingFillableTakerAmount (metaData o) = BNfin r ->
  (0 < ma)%Z -> (0 < ta)%Z ->
  0 <= r <= inject_Z ta ->
  exists r', adjustedRemaining o available = BNfin r'
             /\ 0 <= r' <= inject_Z ta.
Proof.
  intros Hma Hta Hr Hmpos Htpos [Hr0 Hr1].
  assert (0 < inject_Z ma) as HmaQ
    by (change 0 with (inject_Z 0); now rewrite <- Zlt_Qlt).
  assert (0 < inject_Z ta) as HtaQ
    by (change 0 with (inject_Z 0); now rewrite <- Zlt_Qlt).
  assert (exists r0, of_Z 0 = BNfin r0 /\ 0 <= r0 <= inject_Z ta) as Hzero
    by (exists (inject_Z 0); split; [reflexivity |];
        change (inject_Z 0) with 0; lra).
  assert (exists r0, remainingFillableTakerAmount (metaData o) = BNfin r0
                     /\ 0 <= r0 <= inject_Z ta) as Hsame
    by (exists r; auto).
  unfold adjustedRemaining.
  rewrite (remainingFillableMakerAmount_fin o ma ta r) by (auto; lia).
  set (q := round_dp DECIMAL_PLACES (inject_Z ma * r / inject_Z ta)).
  destruct available as [a | [] |]; try exact Hzero; try exact Hsame.
  destruct (gt (BNfin a) (of_Z 0)) eqn:Hpos; [| exact Hzero].
  destruct (gt (BNfin q) (BNfin a)) eqn:Hclip; [| exact Hsame].
  unfold of_Z in Hpos. apply gt_fin in Hpos, Hclip.
  change (inject_Z 0) with 0 in Hpos.
  rewrite (clippedTakerAmount_fin o ma ta a) by (auto; lia).
  eexists. split; [reflexivity |].
  assert (q <= inject_Z ma) as Hq.
  { pose proof (round_dp_inject DECIMAL_PLACES ma) as Hgrid.
    apply Qle_trans with (round_dp DECIMAL_PLACES (inject_Z ma)); [| lra].
    apply round_dp_mono. apply Qle_shift_div_r; [exact HtaQ |]. nra. }
  split.
  - apply round_dp_nonneg. apply Qle_shift_div_l; [exact HmaQ |]. nra.
  - pose proof (round_dp_inject DECIMAL_PLACES ta) as Hgrid.
    apply Qle_trans with (round_dp DECIMAL_PLACES (inject_Z ta)); [| lra].
    apply round_dp_mono. apply Qle_shift_div_r; [exact HmaQ |]. nra.
Qed.

Local Close Scope Q_scope.

(** ** What the aggregators emit *)

Lemma getBidOrAskFormat_remaining (o : SRAOrder) (best : OrderbookPriceResponse) :
  getBidOrAskFormat o = Ok best ->
  resp_remainingFillableTakerAmount best
  = remainingFillableTakerAmount (metaData o)
  /\ resp_takerAmount best = takerAmount (order o)
  /\ resp_makerAmount best = makerAmount (order o).
Proof.
  unfold getBidOrAskFormat.
  repeat (match goal with
          | |- context [getAddress ?a] => destruct (getAddress a); simpl
          end; [| discriminate]).
  now intros [= <-].
Qed.

(** An order pushed by a fold is an order of the list, pushed as it came
    in; what passed the filter is its extended copy. *)
Lemma foldOrders_pushes_inputs (mkrs mkrTokens : list string)
    (req : OrderbookPriceRequest) (orders : list SRAOrder) :
  forall (minOf : list BigNumber) (result : list SRAOrder)
         (final : list BigNumber) (res : list SRAOrder),
    foldOrders mkrs mkrTokens req minOf result orders = Ok (final, res) ->
    forall o, o ∈ res ->
      o ∈ result
      \/ (o ∈ orders
          /\ exists ledger f,
              getFillableOrder mkrs mkrTokens ledger o = Ok f
              /\ filterOrder (extendedOrder f) req = true).
Proof.
  induction orders as [| o' rest IH]; intros minOf result final res; simpl.
  - intros [= _ <-] o Hin. now left.
  - destruct (getFillableOrder mkrs mkrTokens minOf o') as [f | e] eqn:Hstep;
      simpl; [| discriminate].
    intros Hrun o Hin.
    destruct (IH _ _ _ _ Hrun o Hin) as [Hres | (Hrest & Hpass)].
    + destruct (filterOrder (extendedOrder f) req) eqn:Hpass.
      * apply elem_of_app in Hres as [Hres | Hnew]; [now left |].
        apply list_elem_of_singleton in Hnew as ->. right. split.
        -- apply list_elem_of_here.
        -- eauto.
      * now left.
    + right. split; [now apply list_elem_of_further | exact Hpass].
Qed.

Lemma scanBest_emits_input (mkrs mkrTokens : list string)
    (req : OrderbookPriceRequest) (orders : list SRAOrder) :
  forall (minOf final : list BigNumber) (best : OrderbookPriceResponse),
    scanBest mkrs mkrTokens req minOf orders = Ok (final, Some best) ->
    exists o, o ∈ orders
      /\ getBidOrAskFormat o = Ok best
      /\ exists ledger f,
           getFillableOrder mkrs mkrTokens ledger o = Ok f
           /\ filterOrder (extendedOrder f) req = true.
Proof.
  induction orders as [| o' rest IH]; intros minOf final best; simpl.
  - discriminate.
  - destruct (getFillableOrder mkrs mkrTokens minOf o') as [f | e] eqn:Hstep;
      simpl; [| discriminate].
    destruct (filterOrder (extendedOrder f) req) eqn:Hpass.
    + destruct (getBidOrAskFormat o') as [b | e] eqn:Hfmt; simpl; [| discriminate].
      intros [= _ <-]. exists o'. split; [apply list_elem_of_here |].
      split; [exact Hfmt |]. eauto.
    + intros Hrun. destruct (IH _ _ _ Hrun) as (o & Hin & Hrest).
      exists o. split; [now apply list_elem_of_further | exact Hrest].
Qed.

Lemma paginate_records {A : Type} (collection : list A) (p n : Z) (x : A) :
  x ∈ records (paginate collection p n) -> x ∈ collection.
Proof.
  simpl. intros Hin. apply subseteq_take in Hin. now apply subseteq_drop in Hin.
Qed.

Lemma getOrderBookAsync_emits (p n : Z) (bidApiOrders askApiOrders : list SRAOrder)
    (oracle : list BigNumber) (resp : OrderbookResponse) :
  getOrderBookAsync p n bidApiOrders askApiOrders oracle = Ok resp ->
  let mkrs := makers (getMakerInfo bidApiOrders)
                ++ makers (getMakerInfo askApiOrders) in
  let mkrTokens := makerTokens (getMakerInfo bidApiOrders)
                     ++ makerTokens (getMakerInfo askApiOrders) in
  forall o,
    (o ∈ records (bids resp) ->
       o ∈ bidApiOrders /\ passedFilter mkrs mkrTokens (orderBookRequest p n) o)
    /\ (o ∈ records (asks resp) ->
       o ∈ askApiOrders /\ passedFilter mkrs mkrTokens (orderBookRequest p n) o).
Proof.
  unfold getOrderBookAsync. simpl.
  destruct (foldOrders _ _ _ oracle [] bidApiOrders) as [[l1 r1] | e] eqn:Hbids;
    simpl; [| discriminate].
  destruct (foldOrders _ _ _ l1 [] askApiOrders) as [[l2 r2] | e] eqn:Hasks;
    simpl; [| discriminate].
  intros [= <-] o. simpl. split; intros Hin; apply subseteq_take in Hin;
    apply subseteq_drop in Hin.
  - destruct (foldOrders_pushes_inputs _ _ _ _ _ _ _ _ Hbids o Hin) as [H | H];
      [inversion H | exact H].
  - destruct (foldOrders_pushes_inputs _ _ _ _ _ _ _ _ Hasks o Hin) as [H | H];
      [inversion H | exact H].
Qed.

Lemma scanBest_emittedFrom (mkrs mkrTokens : list string)
    (req : OrderbookPriceRequest) (orders : list SRAOrder)
    (minOf final : list BigNumber) (best : OrderbookPriceResponse) :
  scanBest mkrs mkrTokens req minOf orders = Ok (final, Some best) ->
  emittedFrom mkrs mkrTokens req orders best.
Proof.
  intros Hrun.
  destruct (scanBest_emits_input _ _ _ _ _ _ _ Hrun) as (o & Hin & Hfmt & Hpass).
  destruct (getBidOrAskFormat_remaining _ _ Hfmt) as (Hrem & Hta & _).
  exists o. repeat split; assumption.
Qed.

Lemma scanPools_emits (mkrs mkrTokens : list string)
    (req : OrderbookPriceRequest) (pools : list Pool) :
  forall (minOf : list BigNumber) (result : list PriceRecord)
         (final : list BigNumber) (res : list PriceRecord),
    scanPools mkrs mkrTokens req minOf result pools = Ok (final, res) ->
    forall rec, rec ∈ res ->
      rec ∈ result
      \/ exists pool, pool ∈ pools
           /\ (forall best, bid rec = Some best ->
                 emittedFrom mkrs mkrTokens req (pool_bids pool) best)
           /\ (forall best, ask rec = Some best ->
                 emittedFrom mkrs mkrTokens req (pool_asks pool) best).
Proof.
  induction pools as [| pool rest IH]; intros minOf result final res; simpl.
  - intros [= _ <-] rec Hin. now left.
  - destruct (scanBest mkrs mkrTokens req minOf (pool_bids pool))
      as [[l1 b1] | e] eqn:Hbid; simpl; [| discriminate].
    destruct (scanBest mkrs mkrTokens req l1 (pool_asks pool))
      as [[l2 b2] | e] eqn:Hask; simpl; [| discriminate].
    destruct (getAddress (baseToken pool)) as [base | e]; simpl; [| discriminate].
    destruct (getAddress (quoteToken pool)) as [quote | e]; simpl; [| discriminate].
    intros Hrun rec Hin.
    destruct (IH _ _ _ _ Hrun rec Hin) as [Hres | (pool' & Hp & Hrest)].
    + apply elem_of_app in Hres as [Hres | Hnew]; [now left |].
      apply list_elem_of_singleton in Hnew as ->. right.
      exists pool. split; [apply list_elem_of_here |]. simpl. split.
      * intros best ->. eapply scanBest_emittedFrom, Hbid.
      * intros best ->. eapply scanBest_emittedFrom, Hask.
    + right. exists pool'. split; [now apply list_elem_of_further | exact Hrest].
Qed.

Lemma getPricesAsync_emits (req : OrderbookPriceRequest) (pools : list Pool)
    (oracle : list BigNumber) (prices : PaginatedCollection PriceRecord) :
  getPricesAsync req pools oracle = Ok prices ->
  let info := collectMakers pools {| makers := []; makerTokens := [] |} in
  forall rec, rec ∈ records prices ->
    exists pool, pool ∈ pools
      /\ (forall best, bid rec = Some best ->
            emittedFrom (makers info) (makerTokens info) req (pool_bids pool) best)
      /\ (forall best, ask rec = Some best ->
            emittedFrom (makers info) (makerTokens info) req (pool_asks pool) best).
Proof.
  unfold getPricesAsync.
  destruct (scanPools _ _ req oracle [] pools) as [[l res] | e] eqn:Hrun;
    simpl; [| discriminate].
  intros [= <-] rec Hin. apply paginate_records in Hin.
  destruct (scanPools_emits _ _ _ _ _ _ _ _ Hrun rec Hin) as [H | H];
    [inversion H | exact H].
Qed.

(** ** The claims on the outputs *)


(** C4.  For an order with whole positive [makerAmount] and [takerAmount]
    and [0 <= remainingFillableTakerAmount <= takerAmount], the order
    returned by [getFillableOrder] again has
    [0 <= remainingFillableTakerAmount <= takerAmount]: the untouched
    amount, the clipped amount [available * takerAmount / makerAmount]
    and the forced zero all stay within these bounds.  The orders in the
    outputs of [getOrderBookAsync] and the records of [getPricesAsync]
    come from orders satisfying the bounds and satisfy them too. *)
Theorem remaining_within_takerAmount :
  (forall (mkrs mkrTokens : list string) (minOf : list BigNumber)
          (o : SRAOrder) (f : FillableOrderType) (ma ta : Z) (r : Q),
      makerAmount (order o) = of_Z ma ->
      takerAmount (order o) = of_Z ta ->
      remainingFillableTakerAmount (metaData o) = BNfin r ->
      0 < ma -> 0 < ta ->
      (0 <= r <= inject_Z ta)%Q ->
      getFillableOrder mkrs mkrTokens minOf o = Ok f ->
      exists r',
        remainingFillableTakerAmount (metaData (extendedOrder f)) = BNfin r'
        /\ (0 <= r' <= inject_Z ta)%Q)
  /\ (forall (p n : Z) (bidApiOrders askApiOrders : list SRAOrder)
            (oracle : list BigNumber) (resp : OrderbookResponse),
        getOrderBookAsync p n bidApiOrders askApiOrders oracle = Ok resp ->
        (forall o, o ∈ bidApiOrders ++ askApiOrders -> withinTakerAmount o) ->
        forall o, o ∈ records (bids resp) ++ records (asks resp) ->
                  withinTakerAmount o)
  /\ (forall (req : OrderbookPriceRequest) (pools : list Pool)
            (oracle : list BigNumber)
            (prices : PaginatedCollection PriceRecord),
        getPricesAsync req pools oracle = Ok prices ->
        (forall pool o, pool ∈ pools -> o ∈ pool_bids pool ++ pool_asks pool ->
                        withinTakerAmount o) ->
        forall rec best, rec ∈ records prices ->
          bid rec = Some best \/ ask rec = Some best ->
          exists (r : Q) (ta : Z),
            resp_remainingFillableTakerAmount best = BNfin r
            /\ resp_takerAmount best = of_Z ta
            /\ (0 <= r <= inject_Z ta)%Q).
Proof.
  split; [| split].
  - intros mkrs mkrTokens minOf o f ma ta r Hma Hta Hr Hmpos Htpos Hbound Hstep.
    destruct (getFillableOrder_inv _ _ _ _ _ Hstep)
      as (i & available & _ & _ & -> & _).
    simpl. now apply (adjustedRemaining_bounds o ma ta r).
  - intros p n bidApiOrders askApiOrders oracle resp Hrun Hall o Hin.
    apply Hall. rewrite elem_of_app.
    destruct (getOrderBookAsync_emits _ _ _ _ _ _ Hrun o) as [Hb Ha].
    apply elem_of_app in Hin as [Hin | Hin].
    + left. now apply Hb.
    + right. now apply Ha.
  - intros req pools oracle prices Hrun Hall rec best Hin Hbest.
    destruct (getPricesAsync_emits _ _ _ _ Hrun rec Hin) as (pool & Hp & Hb & Ha).
    assert (exists o, o ∈ pool_bids pool ++ pool_asks pool
              /\ resp_remainingFillableTakerAmount best
                 = remainingFillableTakerAmount (metaData o)
              /\ resp_takerAmount best = takerAmount (order o))
      as (o & Hino & Hrem & Hta).
    { destruct Hbest as [Hbest | Hbest].
      - destruct (Hb best Hbest) as (o & Hino & _ & Hrem & Hta & _).
        exists o. rewrite elem_of_app. auto.
      - destruct (Ha best Hbest) as (o & Hino & _ & Hrem & Hta & _).
        exists o. rewrite elem_of_app. auto. }
    destruct (Hall pool o Hp Hino) as (r & ta & Hr & Hta' & Hbound).
    exists r, ta. rewrite Hrem, Hta. auto.
Qed.

(** ** The claims on filterOrder *)



(** C8.  [filterOrder] rejects every order whose
    [remainingFillableTakerAmount] is at most 100, whatever threshold the
    query configures; and with [req.threshold = 0] an order with
    [remainingFillableTakerAmount = 101] that passes the fee, taker and
    fee recipient checks is accepted. *)
Theorem dust_floor :
  (forall (o : SRAOrder) (req : OrderbookPriceRequest),
      lte (remainingFillableTakerAmount (metaData o)) (of_Z 100) = true ->
      filterOrder o req = false)
  /\ (forall (o : SRAOrder) (req : OrderbookPriceRequest),
        req_threshold req = 0 ->
        comparedTo (remainingFillableTakerAmount (metaData o)) (of_Z 101)
        = Some Eq ->
        feeCheckRejects o req = false ->
        takerCheckRejects o req = false ->
        feeRecipientCheckRejects o req = false ->
        filterOrder o req = true).
Proof.
  split.
  - intros o req Hdust. unfold filterOrder, thresholdCheckRejects.
    rewrite Hdust, orb_true_r.
    now destruct (feeCheckRejects o req), (takerCheckRejects o req),
      (feeRecipientCheckRejects o req).
  - intros o req Hthr Hrem Hfee Htaker Hrecipient.
    unfold filterOrder, thresholdCheckRejects.
    rewrite Hfee, Htaker, Hrecipient, Hthr. simpl.
    destruct (remainingFillableTakerAmount (metaData o)) as [r | [] |];
      try discriminate.
    unfold of_Z in *. simpl in Hrem. injection Hrem as Hrem.
    apply Qeq_alt in Hrem.
    replace (lte (BNfin r) (BNfin (inject_Z 100))) with false; [reflexivity |].
    symmetry. apply not_true_is_false. rewrite lte_fin.
    change (inject_Z 100) with 100%Q. change (inject_Z 101) with 101%Q in Hrem.
    lra.
Qed.

(** ** The claim on the arithmetic *)

Local Open Scope Q_scope.

Lemma round_dp_comp (dp : nat) (x y : Q) : x == y -> round_dp dp x == round_dp dp y.
Proof.
  intros H. unfold round_dp.
  rewrite (round_half_up_comp (x * scale dp) (y * scale dp)); [reflexivity |].
  now rewrite H.
Qed.

(** A division that comes out even is left as it is. *)
Lemma round_dp_exact (dp : nat) (a b : Z) :
  b <> 0%Z -> (b | a)%Z ->
  round_dp dp (inject_Z a / inject_Z b) == inject_Z (Z.quot a b).
Proof.
  intros Hb [k ->].
  rewrite Z.quot_mul by exact Hb.
  rewrite <- (round_dp_inject dp k). apply round_dp_comp.
  rewrite inject_Z_mult. apply Qdiv_mult_l.
  intros H. apply Hb. change 0 with (inject_Z 0) in H.
  now apply (inject_Z_injective b 0).
Qed.

(** The amounts of the fold are arbitrary precision decimals: products
    and differences are exact and a division yields the exact quotient
    rounded, half up, to DECIMAL_PLACES decimal places; it is not truncated
    to a whole number.  For whole amounts the implied maker amount and the
    clipped amount lie within half a unit of the last kept decimal place
    of the exact quotient, and equal the whole quotient when the division
    comes out even. *)
Lemma division_rounds_to_decimal_places
    (o : SRAOrder) (ma ta rem : Z) :
  makerAmount (order o) = of_Z ma ->
  takerAmount (order o) = of_Z ta ->
  remainingFillableTakerAmount (metaData o) = of_Z rem ->
  ta <> 0%Z ->
  (exists q,
      remainingFillableMakerAmount o = BNfin q
      /\ q - (1 # 2) / scale DECIMAL_PLACES
         <= inject_Z (ma * rem) / inject_Z ta
         <= q + (1 # 2) / scale DECIMAL_PLACES
      /\ ((ta | ma * rem)%Z -> q == inject_Z (Z.quot (ma * rem) ta)))
  /\ (ma <> 0%Z ->
      forall av : Z,
      exists c,
        clippedTakerAmount o (of_Z av) = BNfin c
        /\ c - (1 # 2) / scale DECIMAL_PLACES
           <= inject_Z (av * ta) / inject_Z ma
           <= c + (1 # 2) / scale DECIMAL_PLACES
        /\ ((ma | av * ta)%Z -> c == inject_Z (Z.quot (av * ta) ma))).
Proof.
  intros Hma Hta Hrem Hnz. split.
  - exists (round_dp DECIMAL_PLACES (inject_Z (ma * rem) / inject_Z ta)).
    split; [| split].
    + rewrite (remainingFillableMakerAmount_fin o ma ta (inject_Z rem))
        by assumption.
      now rewrite inject_Z_mult.
    + apply round_dp_error.
    + now apply round_dp_exact.
  - intros Hmz av.
    exists (round_dp DECIMAL_PLACES (inject_Z (av * ta) / inject_Z ma)).
    split; [| split].
    + unfold of_Z at 1.
      rewrite (clippedTakerAmount_fin o ma ta (inject_Z av)) by assumption.
      now rewrite inject_Z_mult.
    + apply round_dp_error.
    + now apply round_dp_exact.
Qed.


Local Close Scope Q_scope.

(** ** The claim on expiry *)

Lemma isExpired_fin (now buffer e : Z) (o : SRAOrder) :
  expiry (order o) = of_Z e ->
  isExpired now buffer o = true <-> e <= now + buffer.
Proof.
  intros He. unfold isExpired. rewrite He. unfold of_Z.
  rewrite lte_fin, <- Zle_Qle. reflexivity.
Qed.

Lemma MoreThanOrEqual_fin (v e : Z) (o : SRAOrder) :
  expiry (order o) = of_Z e ->
  MoreThanOrEqual v o = true <-> v <= e.
Proof.
  intros He. unfold MoreThanOrEqual. rewrite He. unfold of_Z.
  rewrite gte_fin, <- Zle_Qle. reflexivity.
Qed.

Lemma existsb_withExpirationCheck (dateNow : Z) (o : SRAOrder)
    (fs : list FieldFilter) :
  existsb (fun f => satisfies f o) (withExpirationCheck dateNow fs)
  = existsb (fun f => satisfiesColumns f o) fs
    && MoreThanOrEqual (minExpiryTime dateNow) o.
Proof.
  induction fs as [| f fs IH]; simpl; [reflexivity |].
  rewrite IH. clear IH. unfold satisfies, satisfiesColumns. simpl.
  destruct (optionHolds (where_maker f) _), (optionHolds (where_taker f) _),
    (where_others f o), (MoreThanOrEqual _ o); simpl;
    rewrite ?andb_true_r, ?andb_false_r; reflexivity.
Qed.

(** C9 (as the code has it).  [getBatchOrdersAsync] classifies an order
    as expired exactly when [expiry <= now + buffer]: it reports those
    orders and pages the others.  The query of [getOrdersAsync] retains
    the rows that satisfy a subclause and have
    [expiry >= now + buffer], with [now] the clock in whole seconds.  The
    two rules agree except on an order whose expiry equals
    [now + buffer]: [getBatchOrdersAsync] treats it as expired, while
    [getOrdersAsync] retains it. *)
Theorem expiry_rules (dateNow : Z) (o : SRAOrder) (e : Z) :
  expiry (order o) = of_Z e ->
  let now := dateNow / ONE_SECOND_MS in
  let buffer := SRA_ORDER_EXPIRATION_BUFFER_SECONDS in
  (forall (p n : Z) (apiOrders : list SRAOrder),
      (o ∈ fst (getBatchOrdersAsync now p n apiOrders)
       <-> o ∈ apiOrders /\ e <= now + buffer)
      /\ (o ∈ records (snd (getBatchOrdersAsync now p n apiOrders)) ->
          o ∈ apiOrders /\ now + buffer < e))
  /\ (forall (orderFilter : FieldFilter) (trader : option string)
            (rows : list SRAOrder),
        o ∈ getOrdersAsync_retained dateNow orderFilter trader rows
        <-> o ∈ rows
            /\ existsb (fun f => satisfiesColumns f o)
                 (traderFilters orderFilter trader) = true
            /\ now + buffer <= e)
  /\ (e = now + buffer ->
      isExpired now buffer o = true
      /\ MoreThanOrEqual (minExpiryTime dateNow) o = true).
Proof.
  clear NULL_ADDRESS DIVA_GOVERNANCE_ADDRESS DECIMAL_PLACES getAddress.
  intros He now buffer. split; [| split].
  - intros p n apiOrders. unfold getBatchOrdersAsync, groupByFreshness.
    fold buffer. simpl. split.
    + rewrite list_elem_of_In, filter_In, <- list_elem_of_In.
      now rewrite (isExpired_fin now buffer e o He).
    + intros Hin. apply subseteq_take in Hin. apply subseteq_drop in Hin.
      rewrite list_elem_of_In, filter_In, <- list_elem_of_In in Hin.
      destruct Hin as [Hin Hfresh]. split; [exact Hin |].
      apply negb_true_iff in Hfresh.
      destruct (Z_lt_le_dec (now + buffer) e) as [Hlt | Hle]; [exact Hlt |].
      apply (isExpired_fin now buffer e o He) in Hle. congruence.
  - intros orderFilter trader rows. unfold getOrdersAsync_retained.
    rewrite list_elem_of_In, filter_In, <- list_elem_of_In.
    rewrite existsb_withExpirationCheck, andb_true_iff.
    rewrite (MoreThanOrEqual_fin _ e o He). unfold minExpiryTime.
    fold now buffer. tauto.
  - intros ->. split.
    + apply (isExpired_fin now buffer _ o He). lia.
    + apply (MoreThanOrEqual_fin _ _ o He). unfold minExpiryTime.
      fold now buffer. lia.
Qed.

(** ** The rest of the service *)

(** The largest array that the balance checker contract accepts, the
    spender it is asked about, and the contract call itself.  The call is
    handed [makersTokensChunks[index]] as it is, [undefined] included. *)
Variable ARRAY_LIMIT_LENGTH : nat.
Variable EXCHANGE_PROXY_ADDRESS : string.
Variable balanceChecker :
  list string -> option (list string) -> string -> Result (list BigNumber).

(** [isFreshOrder] and the two rankings of [orderUtils], which are not
    among the sources.  [isFreshOrder] is passed to [filter] as it is, so
    it is handed the index of the order as its second argument;
    [sortBids l] is [l.sort(compareBidOrder)]. *)
Variable isFreshOrder : SRAOrder -> nat -> bool.
Variable sortBids : list SRAOrder -> list SRAOrder.
Variable sortAsks : list SRAOrder -> list SRAOrder.

(** *** getMinOfBalancesOrAllowances *)

(** The callback of the two [reduce] calls:
    [batchIndex = Math.floor(index / ARRAY_LIMIT_LENGTH)]; the chunk is
    created when [resultArray[batchIndex]] is absent, and [item] is pushed
    onto it.  With a positive limit the batch index never passes the
    length of [resultArray], so a created chunk is appended. *)
Definition chunkStep {A : Type} (resultArray : list (list A)) (item : A)
    (index : nat) : list (list A) :=
  let batchIndex := (index / ARRAY_LIMIT_LENGTH)%nat in
  match resultArray !! batchIndex with
  | Some chunk => <[ batchIndex := chunk ++ [item] ]> resultArray
  | None => resultArray ++ [[item]]
  end.

Fixpoint chunkFrom {A : Type} (resultArray : list (list A)) (items : list A)
    (index : nat) : list (list A) :=
  match items with
  | [] => resultArray
  | item :: rest => chunkFrom (chunkStep resultArray item index) rest (S index)
  end.

(** [items.reduce(callback, [])] *)
Definition chunks {A : Type} (items : list A) : list (list A) :=
  chunkFrom [] items 0.

(** [Promise.all(makersChunks.map((makersChunk, index) => call))]: one call
    per chunk of makers, with the chunk of tokens at the same index; the
    whole fails when a call fails. *)
Fixpoint callChunks (makersChunks makersTokensChunks : list (list string))
    (index : nat) : Result (list (list BigNumber)) :=
  match makersChunks with
  | [] => Ok []
  | makersChunk :: rest =>
      try! data :=
        balanceChecker makersChunk (makersTokensChunks !! index)
          EXCHANGE_PROXY_ADDRESS in
      try! others := callChunks rest makersTokensChunks (S index) in
      Ok (data :: others)
  end.

Definition getMinOfBalancesOrAllowances (mkrs mkrTokens : list string)
  : Result (list BigNumber) :=
  let makersChunks := chunks mkrs in
  let makersTokensChunks := chunks mkrTokens in
  try! checkRes := callChunks makersChunks makersTokensChunks 0 in
  Ok (concat checkRes).

(** *** getSignedOrderEntities *)

(** [l.filter(f)]: the callback sees each item with its index. *)
Fixpoint filterFrom {A : Type} (f : A -> nat -> bool) (l : list A) (index : nat)
  : list A :=
  match l with
  | [] => []
  | x :: rest =>
      if f x index then x :: filterFrom f rest (S index)
      else filterFrom f rest (S index)
  end.

(** The rows found for a pair, split by direction, deserialised, kept
    when fresh and ranked.  Rows are shown already deserialised. *)
Definition isBidOf (base quote : string) (o : SRAOrder) : bool :=
  String.eqb (takerToken (order o)) base && String.eqb (makerToken (order o)) quote.

Definition isAskOf (base quote : string) (o : SRAOrder) : bool :=
  String.eqb (takerToken (order o)) quote && String.eqb (makerToken (order o)) base.

(** [In([baseToken, quoteToken])] on a column. *)
Definition inPair (base quote : string) (tok : string) : bool :=
  String.eqb tok base || String.eqb tok quote.

Definition getSignedOrderEntities (base quote : string) (table : list SRAOrder)
  : list SRAOrder * list SRAOrder :=
  let orderEntities :=
    List.filter
      (fun o => inPair base quote (takerToken (order o))
                && inPair base quote (makerToken (order o)))
      table in
  let bidSignedOrderEntities := List.filter (isBidOf base quote) orderEntities in
  let askSignedOrderEntities := List.filter (isAskOf base quote) orderEntities in
  (sortBids (filterFrom isFreshOrder bidSignedOrderEntities 0),
   sortAsks (filterFrom isFreshOrder askSignedOrderEntities 0)).

(** *** getOrderBookAsync and getPricesAsync with their collaborators *)

(** [getOrderBookAsync] from the table of signed orders on: the orders of
    the pair, the balances of their makers, the two folds. *)
Definition getOrderBookAsync_run (p n : Z) (base quote : string)
    (table : list SRAOrder) : Result OrderbookResponse :=
  let '(bidApiOrders, askApiOrders) := getSignedOrderEntities base quote table in
  let bidMakerInfo := getMakerInfo bidApiOrders in
  let askMakerInfo := getMakerInfo askApiOrders in
  let mkrs := ([] ++ makers bidMakerInfo) ++ makers askMakerInfo in
  let mkrTokens := ([] ++ makerTokens bidMakerInfo) ++ makerTokens askMakerInfo in
  try! oracle := getMinOfBalancesOrAllowances mkrs mkrTokens in
  getOrderBookAsync p n bidApiOrders askApiOrders oracle.

(** *** getOrderByHashIfExistsAsync *)

(** [manager.findOne(Entity, orderHash)]: the row whose primary key is the
    hash, [undefined] when there is none. *)
Definition findOne (table : list SRAOrder) (hash : string) : option SRAOrder :=
  List.find (fun o => String.eqb (orderHash (metaData o)) hash) table.

Definition getOrderByHashIfExistsAsync (signed persistent : list SRAOrder)
    (hash : string) : option SRAOrder :=
  match findOne signed hash with
  | Some signedOrderEntity => Some signedOrderEntity
  | None => findOne persistent hash
  end.

(** *** The request built by the prices handler *)

(** The query string of [orderbookPricesAsync], numbers already read. *)
Record PricesQuery : Type := {
  query_graphUrl : option string;
  query_createdBy : option string;
  query_taker : option string;
  query_feeRecipient : option string;
  query_takerTokenFee : option Z;
  query_threshold : option Z
}.

(** The argument that [orderbookPricesAsync] hands to [getPricesAsync];
    [graphUrl] is lower-cased without a check, which raises when it is
    absent. *)
Definition orderbookPricesRequest (p n : Z) (q : PricesQuery)
  : Result OrderbookPriceRequest :=
  match query_graphUrl q with
  | None => Throw TypeError
  | Some graphUrl =>
      Ok {| req_page := p;
            req_perPage := n;
            req_graphUrl := toLowerCase graphUrl;
            req_createdBy :=
              match query_createdBy q with
              | None => EmptyString
              | Some c => toLowerCase c
              end;
            req_taker :=
              match query_taker q with
              | None => NULL_ADDRESS
              | Some t => toLowerCase t
              end;
            req_feeRecipient :=
              match query_feeRecipient q with
              | None => NULL_ADDRESS
              | Some r => toLowerCase r
              end;
            req_takerTokenFee :=
              match query_takerTokenFee q with
              | None => -1
              | Some fee => fee
              end;
            req_threshold :=
              match query_threshold q with
              | None => -1
              | Some t => t
              end |}
  end.

(** *** Vocabulary of the further statements *)

(** The shape of [resultArray] after [k] items: full chunks and a last
    chunk that is not empty. *)
Definition chunkedAfter {A : Type} (cs : list (list A)) (k : nat) : Prop :=
  (cs = [] /\ k = 0%nat)
  \/ exists init last,
       cs = init ++ [last]
       /\ Forall (fun c => length c = ARRAY_LIMIT_LENGTH) init
       /\ (0 < length last <= ARRAY_LIMIT_LENGTH)%nat
       /\ k = (ARRAY_LIMIT_LENGTH * length init + length last)%nat.

(** A chunk list as the contract wants it: no chunk is empty, none is
    longer than the limit, and only the last may be shorter. *)
Definition wellChunked {A : Type} (cs : list (list A)) : Prop :=
  Forall (fun c => (0 < length c <= ARRAY_LIMIT_LENGTH)%nat) cs
  /\ forall i c, cs !! i = Some c -> (S i < length cs)%nat ->
                 length c = ARRAY_LIMIT_LENGTH.

(** The contract answers one balance per pair it is asked about. *)
Definition answersEveryPair : Prop :=
  forall ms ts, length ms = length ts ->
    exists data, balanceChecker ms (Some ts) EXCHANGE_PROXY_ADDRESS = Ok data
                 /\ length data = length ms.

(** The contract answers each pair by [balanceOf], whatever else is in
    the call. *)
Definition answersPairwise (balanceOf : string -> string -> BigNumber) : Prop :=
  forall ms ts, length ms = length ts ->
    balanceChecker ms (Some ts) EXCHANGE_PROXY_ADDRESS
    = Ok (zip_with balanceOf ms ts).

(** An order with whole positive amounts and a remaining amount that is
    not negative. *)
Definition wholeOrder (o : SRAOrder) : Prop :=
  exists (ma ta : Z) (r : Q),
    makerAmount (order o) = of_Z ma
    /\ takerAmount (order o) = of_Z ta
    /\ remainingFillableTakerAmount (metaData o) = BNfin r
    /\ 0 < ma /\ 0 < ta /\ (0 <= r)%Q.

(** Every entry of the ledger is a finite number. *)
Definition finiteLedger (l : list BigNumber) : Prop :=
  Forall (fun x => exists p, x = BNfin p) l.

(** The rankings only reorder: they return no order they were not
    given. *)
Definition sortsKeepOrders : Prop :=
  forall l o, (o ∈ sortBids l -> o ∈ l) /\ (o ∈ sortAsks l -> o ∈ l).

(** The tokens of a price record are the checksummed tokens of the
    market. *)
Definition recordOf (pool : Pool) (rec : PriceRecord) : Prop :=
  getAddress (baseToken pool) = Ok (price_baseToken rec)
  /\ getAddress (quoteToken pool) = Ok (price_quoteToken rec).

(** Entry by entry, the first ledger holds at most what the second
    holds; all entries are finite. *)
Definition ledgerLe (l1 l2 : list BigNumber) : Prop :=
  Forall2 (fun x y => exists p q, x = BNfin p /\ y = BNfin q /\ (p <= q)%Q) l1 l2.

(** ** Chunking for the balance checker *)

Lemma concat_full_length {A : Type} (cs : list (list A)) (n : nat) :
  Forall (fun c => length c = n) cs -> length (concat cs) = (n * length cs)%nat.
Proof.
  induction 1 as [| c cs Hc _ IH]; simpl; [lia |].
  rewrite length_app, IH, Hc. lia.
Qed.

Lemma chunkStep_spec {A : Type} (cs : list (list A)) (item : A) (k : nat) :
  (0 < ARRAY_LIMIT_LENGTH)%nat ->
  chunkedAfter cs k ->
  chunkedAfter (chunkStep cs item k) (S k)
  /\ concat (chunkStep cs item k) = concat cs ++ [item].
Proof.
  intros Hpos [[-> ->] | (init & last & -> & Hfull & Hlast & ->)];
    unfold chunkStep.
  - rewrite Nat.Div0.div_0_l. simpl. split; [| reflexivity].
    right. exists [], [item]. simpl. repeat split; try constructor; lia.
  - destruct (Nat.eq_dec (length last) ARRAY_LIMIT_LENGTH) as [Hfill | Hroom].
    + replace ((ARRAY_LIMIT_LENGTH * length init + length last)
                 / ARRAY_LIMIT_LENGTH)%nat
        with (length (init ++ [last])).
      2:{ rewrite length_app. simpl.
          apply (Nat.div_unique _ _ _ 0%nat); lia. }
      rewrite lookup_ge_None_2 by lia. split.
      * right. exists (init ++ [last]), [item]. simpl.
        rewrite length_app. simpl. repeat split; try lia.
        apply Forall_app. split; [exact Hfull |]. now constructor.
      * rewrite concat_app. simpl. now rewrite ?app_nil_r.
    + replace ((ARRAY_LIMIT_LENGTH * length init + length last)
                 / ARRAY_LIMIT_LENGTH)%nat
        with (length init)
        by (apply (Nat.div_unique _ _ _ (length last)); lia).
      rewrite list_lookup_middle by reflexivity.
      rewrite insert_app_r_alt by lia. rewrite Nat.sub_diag. simpl. split.
      * right. exists init, (last ++ [item]).
        rewrite length_app. simpl. repeat split; try assumption; lia.
      * rewrite !concat_app. simpl. rewrite ?app_nil_r. now rewrite <- ?app_assoc.
Qed.

Lemma chunkFrom_spec {A : Type} (items : list A) :
  (0 < ARRAY_LIMIT_LENGTH)%nat ->
  forall (cs : list (list A)) (k : nat),
    chunkedAfter cs k ->
    chunkedAfter (chunkFrom cs items k) (k + length items)
    /\ concat (chunkFrom cs items k) = concat cs ++ items.
Proof.
  intros Hpos. induction items as [| item rest IH]; intros cs k Hcs; simpl.
  - rewrite Nat.add_0_r, app_nil_r. auto.
  - destruct (chunkStep_spec cs item k Hpos Hcs) as [Hstep Hcat].
    destruct (IH _ _ Hstep) as [Hrest Hcat'].
    replace (k + S (length rest))%nat with (S k + length rest)%nat by lia.
    split; [exact Hrest |].
    rewrite Hcat', Hcat, <- app_assoc. reflexivity.
Qed.

Lemma chunkedAfter_wellChunked {A : Type} (cs : list (list A)) (k : nat) :
  chunkedAfter cs k -> wellChunked cs.
Proof.
  intros [[-> _] | (init & last & -> & Hfull & Hlast & _)]; split.
  - constructor.
  - intros i c Hi. discriminate Hi.
  - apply Forall_app. split.
    + eapply Forall_impl; [exact Hfull |]. simpl. intros c Hc. lia.
    + now constructor.
  - intros i c Hi Hlt. rewrite length_app in Hlt. simpl in Hlt.
    rewrite lookup_app_l in Hi by lia.
    rewrite Forall_lookup in Hfull. exact (Hfull i c Hi).
Qed.

Lemma chunkedAfter_count {A : Type} (cs : list (list A)) (k : nat) :
  (0 < ARRAY_LIMIT_LENGTH)%nat ->
  chunkedAfter cs k ->
  length cs = ((k + ARRAY_LIMIT_LENGTH - 1) / ARRAY_LIMIT_LENGTH)%nat.
Proof.
  intros Hpos [[-> ->] | (init & last & -> & Hfull & Hlast & ->)].
  - simpl. symmetry. apply Nat.div_small. lia.
  - rewrite length_app. simpl.
    apply (Nat.div_unique _ _ _ (length last - 1)); lia.
Qed.

Lemma chunks_concat_aux {A : Type} (items : list A) :
  (0 < ARRAY_LIMIT_LENGTH)%nat ->
  concat (chunks items) = items.
Proof.
  intros Hpos. unfold chunks.
  destruct (chunkFrom_spec items Hpos [] 0) as [_ Hcat]; [left; auto |].
  exact Hcat.
Qed.

(** X1.  Chunking loses and reorders nothing: with a positive limit, the
    chunks of a list, put end to end, are the list itself. *)
Theorem chunks_concat {A : Type} (items : list A) :
  (0 < ARRAY_LIMIT_LENGTH)%nat ->
  concat (chunks items) = items.
Proof. apply chunks_concat_aux. Qed.

(** X2.  With a positive limit no chunk is empty, no chunk is longer than
    the limit, every chunk but the last is exactly as long as the limit,
    and there are [ceil (length / limit)] chunks; an empty list gives no
    chunk at all. *)
Theorem chunks_respect_limit {A : Type} (items : list A) :
  (0 < ARRAY_LIMIT_LENGTH)%nat ->
  wellChunked (chunks items)
  /\ length (chunks items)
     = ((length items + ARRAY_LIMIT_LENGTH - 1) / ARRAY_LIMIT_LENGTH)%nat
  /\ (items = [] -> chunks items = []).
Proof.
  intros Hpos. unfold chunks.
  destruct (chunkFrom_spec items Hpos [] 0) as [Hshape _]; [left; auto |].
  simpl in Hshape. split; [| split].
  - eapply chunkedAfter_wellChunked, Hshape.
  - now apply chunkedAfter_count.
  - intros ->. reflexivity.
Qed.

Lemma chunkStep_fmap {A B : Type} (f : A -> B) (cs : list (list A)) (item : A)
    (k : nat) :
  chunkStep (map (map f) cs) (f item) k = map (map f) (chunkStep cs item k).
Proof.
  unfold chunkStep. rewrite list_lookup_fmap.
  destruct (cs !! (k / ARRAY_LIMIT_LENGTH)%nat) as [chunk |]; simpl.
  - rewrite list_fmap_insert, fmap_app. reflexivity.
  - rewrite fmap_app. reflexivity.
Qed.

Lemma chunkFrom_fmap {A B : Type} (f : A -> B) (items : list A) :
  forall (cs : list (list A)) (k : nat),
    chunkFrom (map (map f) cs) (map f items) k
    = map (map f) (chunkFrom cs items k).
Proof.
  induction items as [| item rest IH]; intros cs k; simpl; [reflexivity |].
  rewrite chunkStep_fmap. apply IH.
Qed.

Lemma chunks_fmap {A B : Type} (f : A -> B) (items : list A) :
  chunks (map f items) = map (map f) (chunks items).
Proof. unfold chunks. apply (chunkFrom_fmap f items [] 0). Qed.

Lemma chunks_keep_pairs_together_aux (mkrs mkrTokens : list string) :
  length mkrs = length mkrTokens ->
  chunks mkrs = map (map fst) (chunks (zip mkrs mkrTokens))
  /\ chunks mkrTokens = map (map snd) (chunks (zip mkrs mkrTokens)).
Proof.
  intros Hlen. split.
  - rewrite <- chunks_fmap, fst_zip by lia. reflexivity.
  - rewrite <- chunks_fmap, snd_zip by lia. reflexivity.
Qed.

(** X3.  The two [reduce] passes cut the makers and the maker tokens at
    the same places: with a positive limit and arrays of one length, the
    chunks of makers and the chunks of tokens are the two sides of the
    chunks of the pairs, so the call at an index is handed pairs that
    belong together. *)
Theorem chunks_keep_pairs_together (mkrs mkrTokens : list string) :
  (0 < ARRAY_LIMIT_LENGTH)%nat ->
  length mkrs = length mkrTokens ->
  chunks mkrs = map (map fst) (chunks (zip mkrs mkrTokens))
  /\ chunks mkrTokens = map (map snd) (chunks (zip mkrs mkrTokens))
  /\ Forall2 (fun c d => length c = length d) (chunks mkrs) (chunks mkrTokens).
Proof.
  intros _ Hlen.
  destruct (chunks_keep_pairs_together_aux mkrs mkrTokens Hlen) as [H1 H2].
  split; [exact H1 |]. split; [exact H2 |].
  rewrite H1, H2. apply Forall2_fmap, Forall_Forall2_diag, Forall_forall.
  intros c _. now rewrite !length_fmap.
Qed.

(** ** The balances *)

Lemma callChunks_defined (cs : list (list (string * string))) :
  answersEveryPair ->
  forall pre : list (list (string * string)),
    exists checkRes,
      callChunks (map (map fst) cs) (map (map snd) (pre ++ cs)) (length pre)
      = Ok checkRes
      /\ length (concat checkRes) = length (concat cs).
Proof.
  intros Hanswer. induction cs as [| c cs IH]; intros pre; simpl.
  - exists []. auto.
  - rewrite list_lookup_fmap, list_lookup_middle by reflexivity. simpl.
    destruct (Hanswer (map fst c) (map snd c)) as (data & -> & Hdata);
      [now rewrite !length_fmap |].
    simpl. destruct (IH (pre ++ [c])) as (others & Hothers & Hlen).
    rewrite <- app_assoc, length_app in Hothers. simpl in Hothers.
    rewrite Nat.add_1_r in Hothers. rewrite Hothers. simpl.
    eexists. split; [reflexivity |]. simpl.
    rewrite !length_app, Hlen, Hdata, length_fmap. reflexivity.
Qed.

Lemma callChunks_pairwise (balanceOf : string -> string -> BigNumber)
    (cs : list (list (string * string))) :
  answersPairwise balanceOf ->
  forall pre : list (list (string * string)),
    callChunks (map (map fst) cs) (map (map snd) (pre ++ cs)) (length pre)
    = Ok (map (fun c => zip_with balanceOf (map fst c) (map snd c)) cs).
Proof.
  intros Hanswer. induction cs as [| c cs IH]; intros pre; simpl.
  - reflexivity.
  - rewrite list_lookup_fmap, list_lookup_middle by reflexivity. simpl.
    rewrite Hanswer by (now rewrite !length_fmap). simpl.
    specialize (IH (pre ++ [c])).
    rewrite <- app_assoc, length_app in IH. simpl in IH.
    rewrite Nat.add_1_r in IH. rewrite IH. reflexivity.
Qed.

Lemma zip_with_concat (balanceOf : string -> string -> BigNumber)
    (cs : list (list (string * string))) :
  concat (map (fun c => zip_with balanceOf (map fst c) (map snd c)) cs)
  = zip_with balanceOf (map fst (concat cs)) (map snd (concat cs)).
Proof.
  induction cs as [| c cs IH]; simpl; [reflexivity |].
  rewrite IH, !fmap_app, zip_with_app by (now rewrite !length_fmap).
  reflexivity.
Qed.

(** One balance comes back for every pair asked about. *)
Lemma getMinOfBalancesOrAllowances_defined (mkrs mkrTokens : list string) :
  (0 < ARRAY_LIMIT_LENGTH)%nat ->
  answersEveryPair ->
  length mkrs = length mkrTokens ->
  exists oracle,
    getMinOfBalancesOrAllowances mkrs mkrTokens = Ok oracle
    /\ length oracle = length mkrs.
Proof.
  intros Hpos Hanswer Hlen. unfold getMinOfBalancesOrAllowances.
  destruct (chunks_keep_pairs_together_aux mkrs mkrTokens Hlen) as [-> ->].
  destruct (callChunks_defined (chunks (zip mkrs mkrTokens))
              Hanswer []) as (checkRes & Hcall & Hsize).
  simpl in Hcall. rewrite Hcall. simpl. eexists. split; [reflexivity |].
  rewrite Hsize, chunks_concat_aux by exact Hpos.
  rewrite length_zip. lia.
Qed.

(** X4.  Chunking is invisible in the balances: when the contract answers
    each pair on its own, the array returned for aligned maker arrays
    holds, at every index, the balance of the pair at that index, however
    many calls it took. *)
Theorem balances_are_positional (balanceOf : string -> string -> BigNumber)
    (mkrs mkrTokens : list string) :
  (0 < ARRAY_LIMIT_LENGTH)%nat ->
  length mkrs = length mkrTokens ->
  answersPairwise balanceOf ->
  getMinOfBalancesOrAllowances mkrs mkrTokens
  = Ok (zip_with balanceOf mkrs mkrTokens).
Proof.
  intros Hpos Hlen Hanswer. unfold getMinOfBalancesOrAllowances.
  destruct (chunks_keep_pairs_together_aux mkrs mkrTokens Hlen) as [-> ->].
  pose proof (callChunks_pairwise balanceOf (chunks (zip mkrs mkrTokens))
                Hanswer []) as Hcall.
  simpl in Hcall. rewrite Hcall. simpl.
  rewrite zip_with_concat, chunks_concat_aux by exact Hpos.
  change (map fst (zip mkrs mkrTokens)) with (fmap fst (zip mkrs mkrTokens)).
  change (map snd (zip mkrs mkrTokens)) with (fmap snd (zip mkrs mkrTokens)).
  rewrite fst_zip, snd_zip by lia. reflexivity.
Qed.

(** ** The order book never misses a key *)

Lemma getFillableOrder_defined (mkrs mkrTokens : list string)
    (minOf : list BigNumber) (o : SRAOrder) :
  (length mkrs <= length mkrTokens)%nat ->
  (length mkrs <= length minOf)%nat ->
  (exists i, occursAt mkrs mkrTokens (makerKey o) (tokenKey o) i) ->
  exists f,
    getFillableOrder mkrs mkrTokens minOf o = Ok f
    /\ length (minOfBalancesOrAllowances f) = length minOf.
Proof.
  intros Htok Hbal (i & mkr & tok & Hm & Ht & Hp).
  destruct (findMakerIndex_defined mkrTokens o mkrs 0 (-1)) as [r Hr]; [lia |].
  destruct (findMakerIndex_spec _ _ _ _ _ _ Hr) as [[_ Hnone] | Hsome].
  - rewrite (Hnone i mkr tok Hm Ht) in Hp. discriminate.
  - destruct Hsome as (k & mkr' & tok' & -> & Hk & _).
    simpl in Hr.
    assert (k < length minOf)%nat as Hlt
      by (pose proof (lookup_lt_Some _ _ _ Hk); lia).
    destruct (lookup_lt_is_Some_2 minOf k Hlt) as [available Hread].
    rewrite (getFillableOrder_at mkrs mkrTokens minOf o k available Htok
               (lastOccurrence_found _ _ _ _ Hr) Hread).
    eexists. split; [reflexivity |]. simpl.
    destruct (gt available (of_Z 0)); [apply length_insert | reflexivity].
Qed.

Lemma foldOrders_defined (mkrs mkrTokens : list string)
    (req : OrderbookPriceRequest) (orders : list SRAOrder) :
  (length mkrs <= length mkrTokens)%nat ->
  (forall o, o ∈ orders ->
     exists i, occursAt mkrs mkrTokens (makerKey o) (tokenKey o) i) ->
  forall (minOf : list BigNumber) (result : list SRAOrder),
    (length mkrs <= length minOf)%nat ->
    exists final res,
      foldOrders mkrs mkrTokens req minOf result orders = Ok (final, res)
      /\ length final = length minOf.
Proof.
  intros Htok. induction orders as [| o rest IH]; intros Hocc minOf result Hbal;
    simpl.
  - eauto.
  - destruct (getFillableOrder_defined mkrs mkrTokens minOf o Htok Hbal)
      as (f & -> & Hlen); [apply Hocc, list_elem_of_here |].
    simpl.
    destruct (IH (fun o' Hin => Hocc o' (list_elem_of_further _ _ _ Hin))
                (minOfBalancesOrAllowances f)
                (if filterOrder (extendedOrder f) req
                 then result ++ [o] else result))
      as (final & res & -> & Hfinal); [lia |].
    exists final, res. split; [reflexivity | lia].
Qed.

Lemma makers_of_both_sides_occur (bidApiOrders askApiOrders : list SRAOrder)
    (o : SRAOrder) :
  o ∈ bidApiOrders ++ askApiOrders ->
  exists i,
    occursAt
      (makers (getMakerInfo bidApiOrders) ++ makers (getMakerInfo askApiOrders))
      (makerTokens (getMakerInfo bidApiOrders)
         ++ makerTokens (getMakerInfo askApiOrders))
      (makerKey o) (tokenKey o) i.
Proof.
  intros Hin. simpl. rewrite <- !map_app.
  exact (getMakerInfo_occurs (bidApiOrders ++ askApiOrders) o Hin).
Qed.

Lemma getOrderBookAsync_defined (p n : Z)
    (bidApiOrders askApiOrders : list SRAOrder) (oracle : list BigNumber) :
  length oracle = (length bidApiOrders + length askApiOrders)%nat ->
  exists resp, getOrderBookAsync p n bidApiOrders askApiOrders oracle = Ok resp.
Proof.
  intros Hlen. unfold getOrderBookAsync. simpl.
  set (mkrs := map (fun data => maker (order data)) bidApiOrders
               ++ map (fun data => maker (order data)) askApiOrders).
  set (mkrTokens := map (fun data => makerToken (order data)) bidApiOrders
                    ++ map (fun data => makerToken (order data)) askApiOrders).
  assert (length mkrs = (length bidApiOrders + length askApiOrders)%nat) as Hm
    by (unfold mkrs; now rewrite length_app, !length_map).
  assert (length mkrTokens = (length bidApiOrders + length askApiOrders)%nat) as Ht
    by (unfold mkrTokens; now rewrite length_app, !length_map).
  assert (forall o, o ∈ bidApiOrders ++ askApiOrders ->
            exists i, occursAt mkrs mkrTokens (makerKey o) (tokenKey o) i) as Hocc
    by (intros o Hin; exact (makers_of_both_sides_occur _ _ o Hin)).
  destruct (foldOrders_defined mkrs mkrTokens (orderBookRequest p n) bidApiOrders)
    with (minOf := oracle) (result := @nil SRAOrder)
    as (l1 & r1 & -> & Hl1); [lia | | lia |].
  { intros o Hin. apply Hocc, elem_of_app. now left. }
  simpl.
  destruct (foldOrders_defined mkrs mkrTokens (orderBookRequest p n) askApiOrders)
    with (minOf := l1) (result := @nil SRAOrder)
    as (l2 & r2 & -> & Hl2); [lia | | lia |].
  { intros o Hin. apply Hocc, elem_of_app. now right. }
  simpl. eauto.
Qed.

(** X5.  With a positive chunk limit and a contract that answers one
    balance per pair, [getOrderBookAsync] returns a response for every
    table of orders and every pair of tokens: the index search finds
    every folded order, and every index found has its balance. *)
Theorem getOrderBookAsync_run_returns (p n : Z) (base quote : string)
    (table : list SRAOrder) :
  (0 < ARRAY_LIMIT_LENGTH)%nat ->
  answersEveryPair ->
  exists resp, getOrderBookAsync_run p n base quote table = Ok resp.
Proof.
  intros Hpos Hanswer. unfold getOrderBookAsync_run.
  destruct (getSignedOrderEntities base quote table) as [bidApiOrders askApiOrders].
  simpl.
  destruct (getMinOfBalancesOrAllowances_defined
              (map (fun data => maker (order data)) bidApiOrders
               ++ map (fun data => maker (order data)) askApiOrders)
              (map (fun data => makerToken (order data)) bidApiOrders
               ++ map (fun data => makerToken (order data)) askApiOrders)
              Hpos Hanswer)
    as (oracle & -> & Hlen); [now rewrite !length_app, !length_map |].
  simpl. apply getOrderBookAsync_defined.
  rewrite Hlen, length_app, !length_map. reflexivity.
Qed.

(** ** What a fold keeps *)

Lemma foldOrders_sublist (mkrs mkrTokens : list string)
    (req : OrderbookPriceRequest) (orders : list SRAOrder) :
  forall (minOf : list BigNumber) (result : list SRAOrder)
         (final : list BigNumber) (res : list SRAOrder),
    foldOrders mkrs mkrTokens req minOf result orders = Ok (final, res) ->
    exists kept, res = result ++ kept /\ kept `sublist_of` orders.
Proof.
  induction orders as [| o rest IH]; intros minOf result final res; simpl.
  - intros [= _ <-]. exists []. rewrite app_nil_r. split; [reflexivity |].
    constructor.
  - destruct (getFillableOrder mkrs mkrTokens minOf o) as [f | e]; simpl;
      [| discriminate].
    intros Hrun. destruct (IH _ _ _ _ Hrun) as (kept & -> & Hsub).
    destruct (filterOrder (extendedOrder f) req).
    + exists (o :: kept). rewrite <- app_assoc. split; [reflexivity |].
      now constructor.
    + exists kept. split; [reflexivity |]. now constructor.
Qed.

(** X6.  The order book keeps the ranking it was given: the bids and the
    asks of the response are sublists of the incoming bids and asks, each
    order at most as often as it came in and in the same relative
    order. *)
Theorem getOrderBookAsync_keeps_rank (p n : Z)
    (bidApiOrders askApiOrders : list SRAOrder) (oracle : list BigNumber)
    (resp : OrderbookResponse) :
  getOrderBookAsync p n bidApiOrders askApiOrders oracle = Ok resp ->
  records (bids resp) `sublist_of` bidApiOrders
  /\ records (asks resp) `sublist_of` askApiOrders.
Proof.
  unfold getOrderBookAsync. simpl.
  destruct (foldOrders _ _ _ oracle [] bidApiOrders) as [[l1 r1] | e] eqn:Hbids;
    simpl; [| discriminate].
  destruct (foldOrders _ _ _ l1 [] askApiOrders) as [[l2 r2] | e] eqn:Hasks;
    simpl; [| discriminate].
  intros [= <-]. simpl.
  destruct (foldOrders_sublist _ _ _ _ _ _ _ _ Hbids) as (k1 & -> & Hs1).
  destruct (foldOrders_sublist _ _ _ _ _ _ _ _ Hasks) as (k2 & -> & Hs2).
  simpl. split.
  - etransitivity; [apply sublist_take |].
    etransitivity; [apply sublist_drop | exact Hs1].
  - etransitivity; [apply sublist_take |].
    etransitivity; [apply sublist_drop | exact Hs2].
Qed.

(** X7.  A fold changes the ledger only at the slots of the orders it
    folds: the ledger keeps its length, and an entry whose index is the
    slot of none of the orders is the same after the fold as before. *)
Theorem foldOrders_frame (mkrs mkrTokens : list string)
    (req : OrderbookPriceRequest) (orders : list SRAOrder) :
  forall (minOf : list BigNumber) (result : list SRAOrder)
         (final : list BigNumber) (res : list SRAOrder),
    foldOrders mkrs mkrTokens req minOf result orders = Ok (final, res) ->
    length final = length minOf
    /\ forall j : nat,
         (forall o, o ∈ orders ->
            findMakerIndex mkrs mkrTokens o 0 (-1) <> Ok (Z.of_nat j)) ->
         final !! j = minOf !! j.
Proof.
  induction orders as [| o rest IH]; intros minOf result final res; simpl.
  - intros [= <- _]. auto.
  - destruct (getFillableOrder mkrs mkrTokens minOf o) as [f | e] eqn:Hstep;
      simpl; [| discriminate].
    intros Hrun. destruct (IH _ _ _ _ Hrun) as [Hlen Hframe].
    destruct (getFillableOrder_inv _ _ _ _ _ Hstep)
      as (i & available & Hfind & _ & _ & Hledger).
    split.
    + rewrite Hlen, Hledger.
      destruct (gt available (of_Z 0)); [apply length_insert | reflexivity].
    + intros j Hfree. rewrite Hframe.
      * rewrite Hledger. destruct (gt available (of_Z 0)); [| reflexivity].
        apply list_lookup_insert_ne. intros ->.
        exact (Hfree o (list_elem_of_here _ _) Hfind).
      * intros o' Hin. apply Hfree. now apply list_elem_of_further.
Qed.

(** ** Exhausted and sufficient collateral *)

Lemma filterOrder_rejects_dust (o : SRAOrder) (req : OrderbookPriceRequest) :
  lte (remainingFillableTakerAmount (metaData o)) (of_Z 100) = true ->
  filterOrder o req = false.
Proof.
  intros Hdust. unfold filterOrder, thresholdCheckRejects.
  rewrite Hdust, orb_true_r.
  now destruct (feeCheckRejects o req), (takerCheckRejects o req),
    (feeRecipientCheckRejects o req).
Qed.

(** X8.  An order that reads an entry which is not positive (zero,
    negative or NaN) comes back with a remaining amount of zero, leaves
    the ledger exactly as it was, and is rejected by [filterOrder]
    whatever the request. *)
Theorem exhausted_entry_drops_order (mkrs mkrTokens : list string)
    (minOf : list BigNumber) (o : SRAOrder) (i : nat) (available : BigNumber) :
  (length mkrs <= length mkrTokens)%nat ->
  lastOccurrence mkrs mkrTokens (makerKey o) (tokenKey o) i ->
  minOf !! i = Some available ->
  gt available (of_Z 0) = false ->
  getFillableOrder mkrs mkrTokens minOf o
  = Ok {| extendedOrder := withRemaining o (of_Z 0);
          minOfBalancesOrAllowances := minOf |}
  /\ forall req, filterOrder (withRemaining o (of_Z 0)) req = false.
Proof.
  intros Hlen Hlast Hread Hzero. split.
  - rewrite (getFillableOrder_at _ _ _ _ _ _ Hlen Hlast Hread).
    unfold adjustedRemaining. now rewrite Hzero.
  - intros req. apply filterOrder_rejects_dust. reflexivity.
Qed.

(** X9.  Once an order has been clipped, the collateral of its pair is
    gone for the rest of the pass: every later order of the same maker and
    maker token gets a remaining amount of zero, does not touch the
    ledger, and is rejected by [filterOrder]. *)
Theorem clipped_order_exhausts_pair (mkrs mkrTokens : list string)
    (minOf : list BigNumber) (o1 o2 : SRAOrder) (i : nat)
    (available : BigNumber) :
  (length mkrs <= length mkrTokens)%nat ->
  lastOccurrence mkrs mkrTokens (makerKey o1) (tokenKey o1) i ->
  makerKey o2 = makerKey o1 -> tokenKey o2 = tokenKey o1 ->
  minOf !! i = Some available ->
  gt available (of_Z 0) = true ->
  gt (remainingFillableMakerAmount o1) available = true ->
  exists f1 f2,
    getFillableOrder mkrs mkrTokens minOf o1 = Ok f1
    /\ getFillableOrder mkrs mkrTokens (minOfBalancesOrAllowances f1) o2 = Ok f2
    /\ extendedOrder f2 = withRemaining o2 (of_Z 0)
    /\ minOfBalancesOrAllowances f2 = minOfBalancesOrAllowances f1
    /\ forall req, filterOrder (extendedOrder f2) req = false.
Proof.
  intros Hlen Hlast Hm Ht Hread Hpos Hclip.
  pose proof (getFillableOrder_at _ _ _ _ _ _ Hlen Hlast Hread) as H1.
  rewrite Hpos in H1.
  set (left := minus available (remainingFillableMakerAmount o1)) in *.
  assert (gt left (of_Z 0) = false) as Hgone.
  { pose proof (minus_negative _ _ Hpos Hclip) as Hneg. fold left in Hneg.
    unfold isNegative, gt in *. destruct (comparedTo left (of_Z 0)) as [[] |];
      congruence. }
  assert (<[ i := left ]> minOf !! i = Some left) as Hread2
    by (apply list_lookup_insert_eq; eapply lookup_lt_Some, Hread).
  assert (lastOccurrence mkrs mkrTokens (makerKey o2) (tokenKey o2) i) as Hlast2
    by (now rewrite Hm, Ht).
  pose proof (getFillableOrder_at _ _ _ o2 _ _ Hlen Hlast2 Hread2) as H2.
  rewrite Hgone in H2. unfold adjustedRemaining in H2. rewrite Hgone in H2.
  eexists _, _. split; [exact H1 |]. simpl. split; [exact H2 |]. simpl.
  repeat split. intros req. apply filterOrder_rejects_dust. reflexivity.
Qed.

Lemma withRemaining_same (o : SRAOrder) :
  withRemaining o (remainingFillableTakerAmount (metaData o)) = o.
Proof. destruct o as [ord [h r]]. reflexivity. Qed.

(** X10.  An order whose implied maker amount is covered by the positive
    entry it reads comes back exactly as it went in, so [filterOrder]
    judges it on the amount it already carried. *)
Theorem covered_order_is_unchanged (mkrs mkrTokens : list string)
    (minOf : list BigNumber) (o : SRAOrder) (i : nat) (available : BigNumber) :
  (length mkrs <= length mkrTokens)%nat ->
  lastOccurrence mkrs mkrTokens (makerKey o) (tokenKey o) i ->
  minOf !! i = Some available ->
  gt available (of_Z 0) = true ->
  gt (remainingFillableMakerAmount o) available = false ->
  exists f,
    getFillableOrder mkrs mkrTokens minOf o = Ok f
    /\ extendedOrder f = o
    /\ forall req, filterOrder (extendedOrder f) req = filterOrder o req.
Proof.
  intros Hlen Hlast Hread Hpos Hcov.
  eexists. split; [apply (getFillableOrder_at _ _ _ _ _ _ Hlen Hlast Hread) |].
  simpl. unfold adjustedRemaining. rewrite Hpos, Hcov, withRemaining_same.
  auto.
Qed.

(** ** The filter *)

(** X11.  Under the request that [getOrderBookAsync] builds (no taker, no
    fee recipient, no fee tolerance, threshold 0) the filter is the dust
    floor alone: an order is kept exactly when its remaining amount is not
    at or below 100. *)
Theorem orderBookRequest_is_dust_floor (p n : Z) (o : SRAOrder) :
  filterOrder o (orderBookRequest p n)
  = negb (lte (remainingFillableTakerAmount (metaData o)) (of_Z 100)).
Proof.
  unfold filterOrder, feeCheckRejects, takerCheckRejects,
    feeRecipientCheckRejects, thresholdCheckRejects. simpl.
  rewrite String.eqb_refl. simpl.
  now destruct (lte _ _).
Qed.

(** X12.  A threshold at or below the dust floor changes nothing: for
    [req.threshold <= 100] the last check of [filterOrder] rejects exactly
    the orders whose remaining amount is at or below 100.  This is the
    case of the threshold [-1] that the prices handler passes when the
    query has none. *)
Theorem low_threshold_is_dust_floor (o : SRAOrder) (req : OrderbookPriceRequest) :
  req_threshold req <= 100 ->
  thresholdCheckRejects o req
  = lte (remainingFillableTakerAmount (metaData o)) (of_Z 100).
Proof.
  intros Hlow. unfold thresholdCheckRejects.
  destruct (lte (remainingFillableTakerAmount (metaData o)) (of_Z 100)) eqn:Hdust;
    [apply orb_true_r |].
  rewrite orb_false_r. apply andb_false_iff. right.
  apply not_true_is_false. intros Hthr.
  destruct (remainingFillableTakerAmount (metaData o)) as [r | [] |];
    try discriminate.
  unfold of_Z in *. apply lte_fin in Hthr.
  assert (~ (r <= inject_Z 100)%Q) as Hnot
    by (rewrite <- lte_fin; congruence).
  apply Hnot. apply Qle_trans with (inject_Z (req_threshold req)); [exact Hthr |].
  now rewrite <- Zle_Qle.
Qed.

(** ** The best price scan *)

(** X13.  A best price scan is the fold cut short: when it finds a best
    order, the orders ranked before it were all rejected, the ledger it
    leaves is the ledger of the fold up to and including that order, and
    the orders ranked after it have consumed nothing; when it finds none,
    it has folded the whole list and every order was rejected. *)
Theorem scanBest_is_a_cut_fold (mkrs mkrTokens : list string)
    (req : OrderbookPriceRequest) (orders : list SRAOrder) :
  forall (minOf final : list BigNumber) (best : option OrderbookPriceResponse),
    scanBest mkrs mkrTokens req minOf orders = Ok (final, best) ->
    match best with
    | Some b =>
        exists pre o post,
          orders = pre ++ o :: post
          /\ getBidOrAskFormat o = Ok b
          /\ foldOrders mkrs mkrTokens req minOf [] (pre ++ [o]) = Ok (final, [o])
    | None => foldOrders mkrs mkrTokens req minOf [] orders = Ok (final, [])
    end.
Proof.
  induction orders as [| o rest IH]; intros minOf final best; simpl.
  - now intros [= <- <-].
  - destruct (getFillableOrder mkrs mkrTokens minOf o) as [f | e] eqn:Hstep;
      simpl; [| discriminate].
    destruct (filterOrder (extendedOrder f) req) eqn:Hpass.
    + destruct (getBidOrAskFormat o) as [b | e] eqn:Hfmt; simpl; [| discriminate].
      intros [= <- <-]. exists [], o, rest. simpl.
      rewrite Hstep. simpl. rewrite Hpass. auto.
    + intros Hrun. specialize (IH _ _ _ Hrun). destruct best as [b |].
      * destruct IH as (pre & o' & post & -> & Hfmt & Hfold).
        exists (o :: pre), o', post. simpl.
        rewrite Hstep. simpl. rewrite Hpass. auto.
      * exact IH.
Qed.

(** X14.  The best order of a scan is the top of the book: started from
    the same ledger with the same request, the scan reports no order
    exactly when the fold keeps none, and otherwise reports the formatted
    first order that the fold keeps. *)
Theorem best_is_top_of_book (mkrs mkrTokens : list string)
    (req : OrderbookPriceRequest) (orders : list SRAOrder) :
  forall (minOf : list BigNumber) (result : list SRAOrder)
         (final : list BigNumber) (res : list SRAOrder)
         (final' : list BigNumber) (best : option OrderbookPriceResponse),
    foldOrders mkrs mkrTokens req minOf result orders = Ok (final, res) ->
    scanBest mkrs mkrTokens req minOf orders = Ok (final', best) ->
    exists kept,
      res = result ++ kept
      /\ match kept with
         | [] => best = None /\ final' = final
         | o :: _ => exists b, getBidOrAskFormat o = Ok b /\ best = Some b
         end.
Proof.
  induction orders as [| o rest IH];
    intros minOf result final res final' best; simpl.
  - intros [= <- <-] [= <- <-]. exists []. now rewrite app_nil_r.
  - destruct (getFillableOrder mkrs mkrTokens minOf o) as [f | e] eqn:Hstep;
      simpl; [| discriminate].
    destruct (filterOrder (extendedOrder f) req) eqn:Hpass.
    + intros Hfold.
      destruct (getBidOrAskFormat o) as [b | e] eqn:Hfmt; simpl; [| discriminate].
      intros [= <- <-].
      destruct (foldOrders_sublist _ _ _ _ _ _ _ _ Hfold) as (kept & -> & _).
      exists (o :: kept). rewrite <- app_assoc. split; [reflexivity |]. eauto.
    + intros Hfold Hscan. exact (IH _ _ _ _ _ _ Hfold Hscan).
Qed.

Lemma scanPools_records (mkrs mkrTokens : list string)
    (req : OrderbookPriceRequest) (pools : list Pool) :
  forall (minOf : list BigNumber) (result : list PriceRecord)
         (final : list BigNumber) (res : list PriceRecord),
    scanPools mkrs mkrTokens req minOf result pools = Ok (final, res) ->
    exists recs, res = result ++ recs /\ Forall2 recordOf pools recs.
Proof.
  induction pools as [| pool rest IH]; intros minOf result final res; simpl.
  - intros [= _ <-]. exists []. rewrite app_nil_r. split; [reflexivity |].
    constructor.
  - destruct (scanBest mkrs mkrTokens req minOf (pool_bids pool))
      as [[l1 b1] | e]; simpl; [| discriminate].
    destruct (scanBest mkrs mkrTokens req l1 (pool_asks pool))
      as [[l2 b2] | e]; simpl; [| discriminate].
    destruct (getAddress (baseToken pool)) as [base | e] eqn:Hbase; simpl;
      [| discriminate].
    destruct (getAddress (quoteToken pool)) as [quote | e] eqn:Hquote; simpl;
      [| discriminate].
    intros Hrun. destruct (IH _ _ _ _ Hrun) as (recs & -> & Hrecs).
    eexists (_ :: recs). rewrite <- app_assoc. split; [reflexivity |].
    constructor; [| exact Hrecs]. split; assumption.
Qed.

(** X15.  The loop over the markets yields exactly one record per market,
    in the order of the markets, each carrying the checksummed base and
    quote token of its market, whether or not a best bid or ask was
    found. *)
Theorem scanPools_one_record_per_pool (mkrs mkrTokens : list string)
    (req : OrderbookPriceRequest) (pools : list Pool)
    (minOf final : list BigNumber) (res : list PriceRecord) :
  scanPools mkrs mkrTokens req minOf [] pools = Ok (final, res) ->
  length res = length pools /\ Forall2 recordOf pools res.
Proof.
  intros Hrun.
  destruct (scanPools_records _ _ _ _ _ _ _ _ Hrun) as (recs & -> & Hrecs).
  simpl. split; [| exact Hrecs]. symmetry. eapply Forall2_length, Hrecs.
Qed.

(** ** The queries *)

(** X16.  With a trader, the query of [getOrdersAsync] retains only rows
    in which the trader is the maker or the taker, and only rows that
    expire at or after [minExpiryTime]; the trader takes the place of any
    maker or taker filter of the request. *)
Theorem trader_is_maker_or_taker (dateNow : Z) (orderFilter : FieldFilter)
    (trader : string) (rows : list SRAOrder) (o : SRAOrder) :
  trader <> EmptyString ->
  o ∈ getOrdersAsync_retained dateNow orderFilter (Some trader) rows ->
  (maker (order o) = trader \/ taker (order o) = trader)
  /\ MoreThanOrEqual (minExpiryTime dateNow) o = true
  /\ where_others orderFilter o = true.
Proof.
  clear NULL_ADDRESS DIVA_GOVERNANCE_ADDRESS DECIMAL_PLACES getAddress
    ARRAY_LIMIT_LENGTH EXCHANGE_PROXY_ADDRESS balanceChecker isFreshOrder
    sortBids sortAsks.
  intros Hne. unfold getOrdersAsync_retained.
  rewrite list_elem_of_In, filter_In, existsb_withExpirationCheck, andb_true_iff.
  intros (_ & Hsome & Hexp). unfold traderFilters in Hsome.
  replace (String.eqb trader EmptyString) with false in Hsome
    by (symmetry; now apply String.eqb_neq).
  simpl in Hsome. unfold satisfiesColumns in Hsome. simpl in Hsome.
  rewrite orb_false_r in Hsome. split; [| split; [exact Hexp |]].
  - apply orb_true_iff in Hsome as [H | H];
      rewrite !andb_true_iff in H; destruct H as [[H1 H2] _].
    + left. now apply String.eqb_eq.
    + right. now apply String.eqb_eq.
  - apply orb_true_iff in Hsome as [H | H];
      rewrite !andb_true_iff in H; now destruct H as [_ H].
Qed.

Lemma findOne_spec (table : list SRAOrder) (hash : string) :
  match findOne table hash with
  | Some o => o ∈ table /\ orderHash (metaData o) = hash
  | None => forall o, o ∈ table -> orderHash (metaData o) <> hash
  end.
Proof.
  unfold findOne.
  destruct (find _ table) as [o |] eqn:Hfind.
  - apply find_some in Hfind as [Hin Heq].
    split; [now apply list_elem_of_In | now apply String.eqb_eq].
  - intros o Hin. apply list_elem_of_In in Hin.
    pose proof (find_none _ _ Hfind o Hin) as Hno. simpl in Hno.
    now apply String.eqb_neq.
Qed.

(** X17.  [getOrderByHashIfExistsAsync] answers [undefined] exactly when
    neither table has a row of that hash; otherwise it answers a row of
    that hash, from the signed orders when they have one and from the
    persistent orders only when the signed orders have none. *)
Theorem getOrderByHash_prefers_signed (signed persistent : list SRAOrder)
    (hash : string) :
  match getOrderByHashIfExistsAsync signed persistent hash with
  | Some o =>
      orderHash (metaData o) = hash
      /\ (o ∈ signed
          \/ (o ∈ persistent
              /\ forall o', o' ∈ signed -> orderHash (metaData o') <> hash))
  | None =>
      forall o, o ∈ signed ++ persistent -> orderHash (metaData o) <> hash
  end.
Proof.
  unfold getOrderByHashIfExistsAsync.
  pose proof (findOne_spec signed hash) as Hs.
  pose proof (findOne_spec persistent hash) as Hp.
  destruct (findOne signed hash) as [o |].
  - destruct Hs as [Hin Heq]. auto.
  - destruct (findOne persistent hash) as [o |].
    + destruct Hp as [Hin Heq]. auto.
    + intros o Hin. apply elem_of_app in Hin as [Hin | Hin]; auto.
Qed.

(** ** Collateral is only consumed *)

Lemma implied_not_negative (o : SRAOrder) :
  wholeOrder o ->
  exists q, remainingFillableMakerAmount o = BNfin q /\ (0 <= q)%Q.
Proof.
  intros (ma & ta & r & Hma & Hta & Hr & Hmpos & Htpos & Hrpos).
  rewrite (remainingFillableMakerAmount_fin o ma ta r) by (auto; lia).
  eexists. split; [reflexivity |].
  assert (0 < inject_Z ma)%Q
    by (change 0%Q with (inject_Z 0); now rewrite <- Zlt_Qlt).
  assert (0 < inject_Z ta)%Q
    by (change 0%Q with (inject_Z 0); now rewrite <- Zlt_Qlt).
  apply round_dp_nonneg. apply Qle_shift_div_l; [assumption |]. nra.
Qed.

Lemma ledgerLe_refl (l : list BigNumber) : finiteLedger l -> ledgerLe l l.
Proof.
  intros Hfin. apply Forall_Forall2_diag.
  eapply Forall_impl; [exact Hfin |]. simpl.
  intros x [p ->]. exists p, p. repeat split. apply Qle_refl.
Qed.

Lemma ledgerLe_finite (l1 l2 : list BigNumber) : ledgerLe l1 l2 -> finiteLedger l1.
Proof.
  induction 1 as [| x y l1 l2 (p & q & -> & _) _ IH]; constructor; eauto.
Qed.

Lemma ledgerLe_trans (l1 l2 l3 : list BigNumber) :
  ledgerLe l1 l2 -> ledgerLe l2 l3 -> ledgerLe l1 l3.
Proof.
  intros H12. revert l3.
  induction H12 as [| x y l1 l2 (p & q & -> & -> & Hpq) _ IH]; intros l3 H23;
    inversion H23 as [| y' z l2' l3' Hyz Hrest]; subst.
  - constructor.
  - constructor; [| now apply IH].
    destruct Hyz as (q' & r & Hq & -> & Hqr). injection Hq as <-.
    exists p, r. repeat split. now apply Qle_trans with q.
Qed.

Lemma ledgerLe_insert (l : list BigNumber) :
  forall (i : nat) (a p : Q),
    finiteLedger l -> l !! i = Some (BNfin a) -> (p <= a)%Q ->
    ledgerLe (<[ i := BNfin p ]> l) l.
Proof.
  induction l as [| x l IH]; intros i a p Hfin Hread Hle.
  - discriminate Hread.
  - inversion Hfin as [| x' l' Hx Hl]; subst. destruct i as [| i]; simpl in *.
    + injection Hread as ->. constructor; [| now apply ledgerLe_refl].
      exists p, a. auto.
    + constructor; [| now apply (IH i a p)].
      destruct Hx as [b ->]. exists b, b. repeat split. apply Qle_refl.
Qed.

Lemma getFillableOrder_consumes (mkrs mkrTokens : list string)
    (minOf : list BigNumber) (o : SRAOrder) (f : FillableOrderType) :
  finiteLedger minOf ->
  wholeOrder o ->
  getFillableOrder mkrs mkrTokens minOf o = Ok f ->
  ledgerLe (minOfBalancesOrAllowances f) minOf.
Proof.
  intros Hfin Hwhole Hstep.
  destruct (getFillableOrder_inv _ _ _ _ _ Hstep)
    as (i & available & _ & Hread & _ & ->).
  destruct (gt available (of_Z 0)); [| now apply ledgerLe_refl].
  destruct (implied_not_negative o Hwhole) as (q & -> & Hq).
  pose proof Hfin as Hall. unfold finiteLedger in Hall.
  rewrite Forall_lookup in Hall.
  destruct (Hall i available Hread) as [a ->]. simpl.
  apply (ledgerLe_insert minOf i a (a - q)%Q Hfin Hread). lra.
Qed.

(** X18.  A fold only consumes collateral: for orders with whole positive
    amounts and a remaining amount that is not negative, every entry of a
    finite ledger is, after the fold, at most what it was before. *)
Theorem foldOrders_only_consumes (mkrs mkrTokens : list string)
    (req : OrderbookPriceRequest) (orders : list SRAOrder) :
  (forall o, o ∈ orders -> wholeOrder o) ->
  forall (minOf : list BigNumber) (result : list SRAOrder)
         (final : list BigNumber) (res : list SRAOrder),
    finiteLedger minOf ->
    foldOrders mkrs mkrTokens req minOf result orders = Ok (final, res) ->
    ledgerLe final minOf.
Proof.
  induction orders as [| o rest IH]; intros Hwhole minOf result final res Hfin;
    simpl.
  - intros [= <- _]. now apply ledgerLe_refl.
  - destruct (getFillableOrder mkrs mkrTokens minOf o) as [f | e] eqn:Hstep;
      simpl; [| discriminate].
    intros Hrun.
    pose proof (getFillableOrder_consumes _ _ _ _ _ Hfin
                  (Hwhole o (list_elem_of_here _ _)) Hstep) as Hle.
    apply ledgerLe_trans with (minOfBalancesOrAllowances f); [| exact Hle].
    eapply IH; [| eapply ledgerLe_finite, Hle | exact Hrun].
    intros o' Hin. apply Hwhole. now apply list_elem_of_further.
Qed.

(** ** The orders of a pair *)

Lemma filterFrom_elem_of {A : Type} (f : A -> nat -> bool) (l : list A) :
  forall (index : nat) (x : A), x ∈ filterFrom f l index -> x ∈ l.
Proof.
  induction l as [| y rest IH]; intros index x; simpl.
  - intros H. inversion H.
  - destruct (f y index).
    + intros H. inversion H as [| ? ? ? H']; subst.
      * apply list_elem_of_here.
      * apply list_elem_of_further. eapply IH, H'.
    + intros H. apply list_elem_of_further. eapply IH, H.
Qed.

(** X19.  [getSignedOrderEntities] sorts the rows of a pair by direction:
    with rankings that only reorder, every bid it returns is a row of the
    table whose taker token is the base token and whose maker token is
    the quote token, every ask is a row the other way round, and for two
    different tokens no row is returned on both sides. *)
Theorem getSignedOrderEntities_splits_by_direction (base quote : string)
    (table : list SRAOrder) :
  sortsKeepOrders ->
  let bidApiOrders := fst (getSignedOrderEntities base quote table) in
  let askApiOrders := snd (getSignedOrderEntities base quote table) in
  (forall o, o ∈ bidApiOrders ->
     o ∈ table /\ takerToken (order o) = base /\ makerToken (order o) = quote)
  /\ (forall o, o ∈ askApiOrders ->
        o ∈ table /\ takerToken (order o) = quote /\ makerToken (order o) = base)
  /\ (base <> quote -> forall o, ~ (o ∈ bidApiOrders /\ o ∈ askApiOrders)).
Proof.
  intros Hsort bidApiOrders askApiOrders.
  assert (forall o, o ∈ bidApiOrders ->
            o ∈ table /\ takerToken (order o) = base
            /\ makerToken (order o) = quote) as Hbids.
  { intros o Hin. apply Hsort in Hin. apply filterFrom_elem_of in Hin.
    rewrite list_elem_of_In, !filter_In, <- list_elem_of_In in Hin.
    destruct Hin as [[Hin _] Hdir]. unfold isBidOf in Hdir.
    apply andb_true_iff in Hdir as [H1 H2].
    apply String.eqb_eq in H1, H2. auto. }
  assert (forall o, o ∈ askApiOrders ->
            o ∈ table /\ takerToken (order o) = quote
            /\ makerToken (order o) = base) as Hasks.
  { intros o Hin. apply Hsort in Hin. apply filterFrom_elem_of in Hin.
    rewrite list_elem_of_In, !filter_In, <- list_elem_of_In in Hin.
    destruct Hin as [[Hin _] Hdir]. unfold isAskOf in Hdir.
    apply andb_true_iff in Hdir as [H1 H2].
    apply String.eqb_eq in H1, H2. auto. }
  split; [exact Hbids |]. split; [exact Hasks |].
  intros Hne o [Hb Ha].
  destruct (Hbids o Hb) as (_ & H1 & _). destruct (Hasks o Ha) as (_ & H2 & _).
  congruence.
Qed.

(** ** The request of the prices handler *)

(** X20.  The prices handler raises when the query has no [graphUrl].
    Otherwise it lower-cases the taker it is given, so the taker filter
    does not depend on letter case: an order whose taker is the queried
    taker in any spelling passes the taker check, an order with another
    taker is rejected unless the queried taker is the null address, and a
    query without a taker rejects no order on its taker. *)
Theorem prices_request_taker_filter (p n : Z) (q : PricesQuery) :
  (query_graphUrl q = None -> orderbookPricesRequest p n q = Throw TypeError)
  /\ forall req, orderbookPricesRequest p n q = Ok req ->
       (query_taker q = None -> forall o, takerCheckRejects o req = false)
       /\ (forall t o, query_taker q = Some t ->
             toLowerCase (taker (order o)) = toLowerCase t ->
             takerCheckRejects o req = false)
       /\ (forall t o, query_taker q = Some t ->
             toLowerCase t <> NULL_ADDRESS ->
             toLowerCase (taker (order o)) <> toLowerCase t ->
             takerCheckRejects o req = true).
Proof.
  unfold orderbookPricesRequest. split.
  - now intros ->.
  - intros req. destruct (query_graphUrl q) as [g |]; [| discriminate].
    intros [= <-]. unfold takerCheckRejects. simpl. split; [| split].
    + intros -> o. now rewrite String.eqb_refl.
    + intros t o -> ->. rewrite String.eqb_refl. apply andb_false_r.
    + intros t o -> Hnull Hother. apply andb_true_iff. split.
      * apply negb_true_iff. now apply String.eqb_neq.
      * apply negb_true_iff. apply String.eqb_neq. congruence.
Qed.

(** X21.  A prices query that names no taker, no fee recipient, no fee
    and no threshold filters by the dust floor alone: the request built
    for it keeps an order exactly when its remaining amount is not at or
    below 100. *)
Theorem empty_query_is_dust_floor (p n : Z) (q : PricesQuery)
    (req : OrderbookPriceRequest) (o : SRAOrder) :
  orderbookPricesRequest p n q = Ok req ->
  query_taker q = None -> query_feeRecipient q = None ->
  query_takerTokenFee q = None -> query_threshold q = None ->
  filterOrder o req
  = negb (lte (remainingFillableTakerAmount (metaData o)) (of_Z 100)).
Proof.
  unfold orderbookPricesRequest.
  destruct (query_graphUrl q) as [g |]; [| discriminate].
  intros [= <-] -> -> -> ->.
  unfold filterOrder, feeCheckRejects, takerCheckRejects,
    feeRecipientCheckRejects, thresholdCheckRejects. simpl.
  rewrite String.eqb_refl. simpl.
  destruct (remainingFillableTakerAmount (metaData o)) as [r | [] |];
    try reflexivity.
  unfold lte, of_Z. simpl.
  destruct (r ?= inject_Z 100)%Q eqn:E100; destruct (r ?= inject_Z (-1))%Q eqn:E1;
    try reflexivity; exfalso.
  - apply Qeq_alt in E1. apply Qgt_alt in E100.
    change (inject_Z 100) with 100%Q in E100.
    change (inject_Z (-1)) with (-1)%Q in E1. lra.
  - apply Qlt_alt in E1. apply Qgt_alt in E100.
    change (inject_Z 100) with 100%Q in E100.
    change (inject_Z (-1)) with (-1)%Q in E1. lra.
Qed.

End OrderBookService.

(** ** Concrete runs *)

Module Examples.

Local Open Scope string_scope.

Definition NULL_ADDRESS : string := "0x0000000000000000000000000000000000000000".
Definition DIVA_GOVERNANCE_ADDRESS : string :=
  "0xBb0F479895915F80f6fEb5BABcb0Ad39a0D7eF4E".

(** The precision set by [@0x/utils]. *)
Definition DECIMAL_PLACES : nat := 78.

(** A checksum function that accepts every string and leaves it as it
    is. *)
Definition getAddress (a : string) : Result string := Ok a.

Definition mkOrder (mkr tok : string) (ma ta fee rem : Z) : SRAOrder :=
  {| order := {| maker := mkr;
                 taker := NULL_ADDRESS;
                 makerToken := tok;
                 takerToken := "0xbase";
                 makerAmount := of_Z ma;
                 takerAmount := of_Z ta;
                 takerTokenFeeAmount := of_Z fee;
                 feeRecipient := NULL_ADDRESS;
                 expiry := of_Z 1010;
                 salt := of_Z 1 |};
     metaData := {| orderHash := "0xhash";
                    remainingFillableTakerAmount := of_Z rem |} |}.

(** The two orders of the priority allocation example: one maker, one
    token, written in different letter case. *)
Definition orderA : SRAOrder := mkOrder "0xAA" "0xCC" 800000 800000 0 800000.
Definition orderB : SRAOrder := mkOrder "0xaa" "0xcc" 500000 500000 0 500000.

(** An order of another maker. *)
Definition orderZ : SRAOrder := mkOrder "0xzz" "0xcc" 500 500 0 500.

(** One third of a token per taker unit. *)
Definition orderThird : SRAOrder := mkOrder "0xaa" "0xcc" 1 3 0 1.


Definition bookRequest : OrderbookPriceRequest := orderBookRequest NULL_ADDRESS 1 10.


Definition anyFilter : FieldFilter :=
  {| where_maker := None;
     where_taker := None;
     where_others := fun _ => true;
     where_minExpiry := None |}.

Definition sameValue (x y : BigNumber) : Prop := comparedTo x y = Some Eq.

Definition run_getFillableOrder :=
  getFillableOrder DECIMAL_PLACES.
Definition run_foldOrders :=
  foldOrders NULL_ADDRESS DIVA_GOVERNANCE_ADDRESS DECIMAL_PLACES.
Definition run_getOrderBookAsync :=
  getOrderBookAsync NULL_ADDRESS DIVA_GOVERNANCE_ADDRESS DECIMAL_PLACES.
Definition run_filterOrder :=
  filterOrder NULL_ADDRESS DIVA_GOVERNANCE_ADDRESS.

(** Observations on the result of a call. *)
Definition remainingAfter (r : Result FillableOrderType) : option BigNumber :=
  match r with
  | Ok f => Some (remainingFillableTakerAmount (metaData (extendedOrder f)))
  | Throw _ => None
  end.

Definition ledgerAfter (r : Result FillableOrderType) : list BigNumber :=
  match r with
  | Ok f => minOfBalancesOrAllowances f
  | Throw _ => []
  end.

Definition hasValue (x : option BigNumber) (z : Z) : bool :=
  match x with
  | Some v => match comparedTo v (of_Z z) with Some Eq => true | _ => false end
  | None => false
  end.


(** The priority allocation of the specification: 1,000,000 of
    collateral, order A takes 800,000 and is left whole, order B is
    clipped to the 200,000 that remain. *)
Example priority_allocation :
  let afterA :=
    run_getFillableOrder ["0xAA"; "0xaa"] ["0xCC"; "0xcc"]
      [of_Z 0; of_Z 1000000] orderA in
  let afterB :=
    run_getFillableOrder ["0xAA"; "0xaa"] ["0xCC"; "0xcc"]
      (ledgerAfter afterA) orderB in
  hasValue (remainingAfter afterA) 800000 = true
  /\ hasValue (ledgerAfter afterA !! 1%nat) 200000 = true
  /\ hasValue (remainingAfter afterB) 200000 = true
  /\ hasValue (ledgerAfter afterB !! 1%nat) (-300000) = true.
Proof. vm_compute. repeat split. Qed.

Definition exMakers : list string := ["0xAA"; "0xaa"].
Definition exTokens : list string := ["0xCC"; "0xcc"].

(** The ledger before order A and before order B. *)
Definition ledgerA : list BigNumber := [of_Z 0; of_Z 1000000].
Definition ledgerB : list BigNumber := [of_Z 0; of_Z 200000].

(** *** C1 *)

(** C1.  The claim that no entry of the ledger is ever negative during a
    fold, against the code: the ledger starts without negative entries,
    order A is covered, order B is clipped, and the entry both drew on
    ends below zero (at -300,000).  The decrement is the implied maker
    amount, not the minimum of it and the entry that the comment in
    [getFillableOrder] describes. *)
Lemma clipped_order_leaves_negative_entry :
  nonNegativeLedger ledgerA
  /\ match run_foldOrders exMakers exTokens bookRequest ledgerA []
             [orderA; orderB] with
     | Ok (final, _) =>
         existsb isNegative final = true
         /\ hasValue (final !! 1%nat) (-300000) = true
     | Throw _ => False
     end.
Proof. split; [repeat constructor | vm_compute; split; reflexivity]. Qed.

Example covered_fold_keeps_ledger :
  nonNegativeLedger ledgerA
  /\ eachCovered DECIMAL_PLACES exMakers exTokens ledgerA [orderA] = true
  /\ forall result final res,
       run_foldOrders exMakers exTokens bookRequest ledgerA result [orderA]
       = Ok (final, res) ->
       nonNegativeLedger final.
Proof.
  assert (nonNegativeLedger ledgerA) as H1 by (repeat constructor).
  assert (eachCovered DECIMAL_PLACES exMakers exTokens ledgerA [orderA] = true)
    as H2 by (vm_compute; reflexivity).
  exact (conj H1 (conj H2
           (proj1 (ledger_not_negative_while_covered
                     NULL_ADDRESS DIVA_GOVERNANCE_ADDRESS DECIMAL_PLACES getAddress
                     exMakers exTokens bookRequest ledgerA [orderA] H1 H2)))).
Qed.

(** *** C2 and C10 *)

Lemma orderB_last_occurrence :
  lastOccurrence exMakers exTokens (makerKey orderB) (tokenKey orderB) 1.
Proof. apply lastOccurrence_found. reflexivity. Qed.


Lemma both_spellings_use_last_slot :
  (length exMakers <= length exTokens)%nat
  /\ ledgerA !! 1%nat = Some (of_Z 1000000)
  /\ makerKey orderA = makerKey orderB
  /\ tokenKey orderA = tokenKey orderB
  /\ exists f,
       run_getFillableOrder exMakers exTokens ledgerA orderA = Ok f
       /\ extendedOrder f
          = withRemaining orderA
              (adjustedRemaining DECIMAL_PLACES orderA (of_Z 1000000))
       /\ minOfBalancesOrAllowances f
          = (if gt (of_Z 1000000) (of_Z 0)
             then <[ 1%nat := minus (of_Z 1000000)
                                (remainingFillableMakerAmount DECIMAL_PLACES orderA) ]>
                    ledgerA
             else ledgerA)
       /\ (forall j, j <> 1%nat ->
             minOfBalancesOrAllowances f !! j = ledgerA !! j)
       /\ length (minOfBalancesOrAllowances f) = length ledgerA.
Proof.
  assert (length exMakers <= length exTokens)%nat as H1 by (simpl; lia).
  assert (ledgerA !! 1%nat = Some (of_Z 1000000)) as H2 by reflexivity.
  assert (makerKey orderA = makerKey orderB) as H3 by reflexivity.
  assert (tokenKey orderA = tokenKey orderB) as H4 by reflexivity.
  exact (conj H1 (conj H2 (conj H3 (conj H4
           (getFillableOrder_uses_last_index DECIMAL_PLACES
              exMakers exTokens ledgerA (makerKey orderB) (tokenKey orderB) 1
              (of_Z 1000000) H1 orderB_last_occurrence H2 orderA H3 H4))))).
Defined.

(** *** C3 *)



(** *** C4 *)

Lemma clipped_step_within_takerAmount :
  match run_getFillableOrder exMakers exTokens ledgerB orderB with
  | Ok f =>
      exists r',
        remainingFillableTakerAmount (metaData (extendedOrder f)) = BNfin r'
        /\ (0 <= r' <= inject_Z 500000)%Q
  | Throw _ => False
  end.
Proof.
  destruct (run_getFillableOrder exMakers exTokens ledgerB orderB)
    as [f | e] eqn:Hrun.
  - refine (proj1 (remaining_within_takerAmount
                     NULL_ADDRESS DIVA_GOVERNANCE_ADDRESS DECIMAL_PLACES getAddress)
              exMakers exTokens ledgerB orderB f 500000 500000 (inject_Z 500000)
              eq_refl eq_refl eq_refl _ _ _ Hrun).
    + reflexivity.
    + reflexivity.
    + split; discriminate.
  - vm_compute in Hrun. discriminate Hrun.
Defined.

(** *** C5 *)

(** The pair of order Z is not in the arrays, and the call raises. *)
Lemma absent_pair_raises :
  pairMatches (makerKey orderZ) (tokenKey orderZ) "0xaa" "0xcc" = false
  /\ run_getFillableOrder ["0xaa"] ["0xcc"] [of_Z 5] orderZ = Throw TypeError.
Proof. split; reflexivity. Qed.

Lemma orderZ_absent :
  forall i, ~ occursAt ["0xaa"] ["0xcc"] (makerKey orderZ) (tokenKey orderZ) i.
Proof.
  intros [| i] (mkr & tok & Hm & Ht & Hp).
  - injection Hm as <-. injection Ht as <-. discriminate Hp.
  - discriminate Hm.
Qed.

Lemma absent_pair_raises_for_every_ledger :
  run_getFillableOrder ["0xaa"] ["0xcc"] [of_Z 5] orderZ = Throw TypeError.
Proof.
  exact (proj1 (getFillableOrder_absent_pair_raises DECIMAL_PLACES
                  ["0xaa"] ["0xcc"] [of_Z 5] orderZ orderZ_absent)).
Defined.

(** *** C6 *)



(** *** C7 *)





Example one_third_is_rounded :
  exists q,
    remainingFillableMakerAmount DECIMAL_PLACES orderThird = BNfin q
    /\ (q - (1 # 2) / scale DECIMAL_PLACES
        <= inject_Z (1 * 1) / inject_Z 3
        <= q + (1 # 2) / scale DECIMAL_PLACES)%Q
    /\ ((3 | 1 * 1) -> (q == inject_Z (Z.quot (1 * 1) 3))%Q).
Proof.
  assert (3 <> 0) as Hnz by discriminate.
  exact (proj1 (division_rounds_to_decimal_places DECIMAL_PLACES orderThird 1 3 1
                  eq_refl eq_refl eq_refl Hnz)).
Qed.

(** *** C8 *)

Definition order100 : SRAOrder := mkOrder "0xaa" "0xcc" 500 500 0 100.
Definition order101 : SRAOrder := mkOrder "0xaa" "0xcc" 500 500 0 101.

Lemma dust_floor_run :
  run_filterOrder order100 bookRequest = false
  /\ run_filterOrder order101 bookRequest = true.
Proof.
  split.
  - exact (proj1 (dust_floor NULL_ADDRESS DIVA_GOVERNANCE_ADDRESS)
             order100 bookRequest eq_refl).
  - exact (proj2 (dust_floor NULL_ADDRESS DIVA_GOVERNANCE_ADDRESS)
             order101 bookRequest eq_refl eq_refl eq_refl eq_refl eq_refl).
Defined.

(** *** C9 *)

(** With the clock at 1000 seconds and a buffer of 10 seconds, an order
    that expires at 1010 is expired for [getBatchOrdersAsync] and retained
    by the query of [getOrdersAsync]. *)
Lemma order_expiring_at_the_bound_is_retained :
  isExpired (1000000 / 1000) 10 orderB = true
  /\ fst (getBatchOrdersAsync 10 (1000000 / 1000) 1 10 [orderB]) = [orderB]
  /\ getOrdersAsync_retained 1000 10 1000000 anyFilter None [orderB] = [orderB].
Proof. vm_compute. repeat split. Qed.

Lemma expiry_at_the_bound_run :
  expiry (order orderB) = of_Z (1000000 / 1000 + 10)
  /\ isExpired (1000000 / 1000) 10 orderB = true
  /\ MoreThanOrEqual (minExpiryTime 1000 10 1000000) orderB = true.
Proof.
  assert (expiry (order orderB) = of_Z (1000000 / 1000 + 10)) as H1 by reflexivity.
  exact (conj H1
           (proj2 (proj2 (expiry_rules 1000 10 1000000 orderB
                            (1000000 / 1000 + 10) H1)) eq_refl)).
Defined.

End Examples.

(** ** The governance pre-check *)

(** X22.  The pre-check on the governance address in the fee block of
    [filterOrder] never decides anything: the general tolerance check that
    follows rejects whatever the pre-check rejects, so the filter gives
    the same answer for every value of DIVA_GOVERNANCE_ADDRESS. *)
Theorem filterOrder_ignores_governance_address
    (NULL_ADDRESS governance1 governance2 : string)
    (o : SRAOrder) (req : OrderbookPriceRequest) :
  filterOrder NULL_ADDRESS governance1 o req
  = filterOrder NULL_ADDRESS governance2 o req.
Proof.
  unfold filterOrder, feeCheckRejects.
  destruct (negb (req_takerTokenFee req =? -1)); [| reflexivity].
  cbv zeta.
  destruct (outOfTolerance (takerTokenFeeAmount (order o))
              (takerTokenFeeAmountExpected o req) (of_Z 1)).
  - rewrite !andb_true_r.
    now destruct (_ && String.eqb _ (toLowerCase governance1)),
      (_ && String.eqb _ (toLowerCase governance2)).
  - now rewrite !andb_false_r.
Qed.

(** ** Further concrete runs *)

Module Runs.

Import Examples.

Local Open Scope string_scope.

(** A contract limit of two pairs per call. *)
Definition ARRAY_LIMIT_LENGTH : nat := 2.

Definition EXCHANGE_PROXY_ADDRESS : string := "0xproxy".

(** Every maker holds one million of every token. *)
Definition balanceOf (mkr tok : string) : BigNumber := of_Z 1000000.

Definition balanceChecker (ms : list string) (ts : option (list string))
    (spender : string) : Result (list BigNumber) :=
  match ts with
  | Some ts => Ok (zip_with balanceOf ms ts)
  | None => Throw TypeError
  end.

(** Every order is fresh, and the rankings leave the lists as they are. *)
Definition isFreshOrder (o : SRAOrder) (index : nat) : bool := true.
Definition sortBids (l : list SRAOrder) : list SRAOrder := l.
Definition sortAsks (l : list SRAOrder) : list SRAOrder := l.

(** A bid and an ask of the pair (0xbase, 0xcc) and a row of another
    pair. *)
Definition askRow : SRAOrder :=
  {| order := {| maker := "0xbb";
                 taker := NULL_ADDRESS;
                 makerToken := "0xbase";
                 takerToken := "0xcc";
                 makerAmount := of_Z 700;
                 takerAmount := of_Z 700;
                 takerTokenFeeAmount := of_Z 0;
                 feeRecipient := NULL_ADDRESS;
                 expiry := of_Z 1010;
                 salt := of_Z 2 |};
     metaData := {| orderHash := "0xask";
                    remainingFillableTakerAmount := of_Z 700 |} |}.

Definition otherRow : SRAOrder :=
  {| order := {| maker := "0xbb";
                 taker := NULL_ADDRESS;
                 makerToken := "0xdd";
                 takerToken := "0xcc";
                 makerAmount := of_Z 700;
                 takerAmount := of_Z 700;
                 takerTokenFeeAmount := of_Z 0;
                 feeRecipient := NULL_ADDRESS;
                 expiry := of_Z 1010;
                 salt := of_Z 3 |};
     metaData := {| orderHash := "0xother";
                    remainingFillableTakerAmount := of_Z 700 |} |}.

Definition table : list SRAOrder := [orderA; askRow; otherRow; orderB].

Definition market : Pool :=
  {| baseToken := "0xbase";
     quoteToken := "0xcc";
     pool_bids := [orderA; orderB];
     pool_asks := [askRow] |}.

Definition pricesQuery : PricesQuery :=
  {| query_graphUrl := Some "https://Graph";
     query_createdBy := None;
     query_taker := Some "0xAbC";
     query_feeRecipient := None;
     query_takerTokenFee := None;
     query_threshold := None |}.

Definition emptyQuery : PricesQuery :=
  {| query_graphUrl := Some "https://Graph";
     query_createdBy := None;
     query_taker := None;
     query_feeRecipient := None;
     query_takerTokenFee := None;
     query_threshold := None |}.

Definition run_scanBest :=
  scanBest NULL_ADDRESS DIVA_GOVERNANCE_ADDRESS DECIMAL_PLACES getAddress.
Definition run_scanPools :=
  scanPools NULL_ADDRESS DIVA_GOVERNANCE_ADDRESS DECIMAL_PLACES getAddress.

Definition pairMakers : list string := ["0xa"; "0xb"; "0xc"].
Definition pairTokens : list string := ["0xt"; "0xu"; "0xv"].

Lemma positive_limit : (0 < ARRAY_LIMIT_LENGTH)%nat.
Proof. unfold ARRAY_LIMIT_LENGTH. lia. Qed.

Lemma checker_answers_pairwise :
  answersPairwise EXCHANGE_PROXY_ADDRESS balanceChecker balanceOf.
Proof. intros ms ts _. reflexivity. Qed.

Lemma checker_answers_every_pair :
  answersEveryPair EXCHANGE_PROXY_ADDRESS balanceChecker.
Proof.
  intros ms ts Hlen. eexists. split; [reflexivity |].
  now apply length_zip_with_l_eq.
Qed.

Lemma rankings_keep_orders : sortsKeepOrders sortBids sortAsks.
Proof. intros l o. split; intros H; exact H. Qed.

Lemma orderA_last_occurrence :
  lastOccurrence exMakers exTokens (makerKey orderA) (tokenKey orderA) 1.
Proof. apply lastOccurrence_found. reflexivity. Qed.

(** *** Chunks and balances *)

Lemma five_items_in_chunks_of_two :
  (0 < ARRAY_LIMIT_LENGTH)%nat
  /\ concat (chunks ARRAY_LIMIT_LENGTH [1; 2; 3; 4; 5]) = [1; 2; 3; 4; 5].
Proof.
  exact (conj positive_limit
           (chunks_concat ARRAY_LIMIT_LENGTH [1; 2; 3; 4; 5] positive_limit)).
Defined.

Lemma five_items_make_three_chunks :
  (0 < ARRAY_LIMIT_LENGTH)%nat
  /\ wellChunked ARRAY_LIMIT_LENGTH (chunks ARRAY_LIMIT_LENGTH [1; 2; 3; 4; 5])
  /\ length (chunks ARRAY_LIMIT_LENGTH [1; 2; 3; 4; 5])
     = ((length [1; 2; 3; 4; 5] + ARRAY_LIMIT_LENGTH - 1) / ARRAY_LIMIT_LENGTH)%nat
  /\ ([1; 2; 3; 4; 5] = [] -> chunks ARRAY_LIMIT_LENGTH [1; 2; 3; 4; 5] = []).
Proof.
  exact (conj positive_limit
           (chunks_respect_limit ARRAY_LIMIT_LENGTH [1; 2; 3; 4; 5]
              positive_limit)).
Defined.

Lemma three_pairs_stay_together :
  (0 < ARRAY_LIMIT_LENGTH)%nat
  /\ length pairMakers = length pairTokens
  /\ chunks ARRAY_LIMIT_LENGTH pairMakers
     = map (map fst)
         (chunks ARRAY_LIMIT_LENGTH
            (zip pairMakers pairTokens)).
Proof.
  assert (length pairMakers = length pairTokens) as H
    by reflexivity.
  exact (conj positive_limit (conj H
           (proj1 (chunks_keep_pairs_together ARRAY_LIMIT_LENGTH
                     pairMakers pairTokens positive_limit H)))).
Defined.

Lemma three_balances_in_two_calls :
  getMinOfBalancesOrAllowances ARRAY_LIMIT_LENGTH EXCHANGE_PROXY_ADDRESS
    balanceChecker pairMakers pairTokens
  = Ok (zip_with balanceOf pairMakers pairTokens).
Proof.
  exact (balances_are_positional ARRAY_LIMIT_LENGTH EXCHANGE_PROXY_ADDRESS
           balanceChecker balanceOf pairMakers pairTokens
           positive_limit eq_refl checker_answers_pairwise).
Defined.

(** *** The order book *)

Lemma order_book_of_the_table_returns :
  exists resp,
    getOrderBookAsync_run NULL_ADDRESS DIVA_GOVERNANCE_ADDRESS DECIMAL_PLACES
      ARRAY_LIMIT_LENGTH EXCHANGE_PROXY_ADDRESS balanceChecker isFreshOrder
      sortBids sortAsks 1 10 "0xbase" "0xcc" table = Ok resp.
Proof.
  exact (getOrderBookAsync_run_returns NULL_ADDRESS DIVA_GOVERNANCE_ADDRESS
           DECIMAL_PLACES ARRAY_LIMIT_LENGTH EXCHANGE_PROXY_ADDRESS
           balanceChecker isFreshOrder sortBids sortAsks 1 10 "0xbase" "0xcc"
           table positive_limit checker_answers_every_pair).
Defined.

Lemma order_book_run_keeps_rank :
  match run_getOrderBookAsync 1 10 [orderA; orderB] [askRow]
          [of_Z 0; of_Z 1000000; of_Z 1000] with
  | Ok resp =>
      records (bids resp) `sublist_of` [orderA; orderB]
      /\ records (asks resp) `sublist_of` [askRow]
  | Throw _ => False
  end.
Proof.
  destruct (run_getOrderBookAsync 1 10 [orderA; orderB] [askRow]
              [of_Z 0; of_Z 1000000; of_Z 1000]) as [resp | e] eqn:Hrun.
  - exact (getOrderBookAsync_keeps_rank NULL_ADDRESS DIVA_GOVERNANCE_ADDRESS
             DECIMAL_PLACES 1 10 [orderA; orderB] [askRow]
             [of_Z 0; of_Z 1000000; of_Z 1000] resp Hrun).
  - vm_compute in Hrun. discriminate Hrun.
Defined.

Lemma fold_run_frame :
  match run_foldOrders exMakers exTokens bookRequest ledgerA [] [orderA; orderB]
  with
  | Ok (final, res) =>
      length final = length ledgerA
      /\ forall j : nat,
           (forall o, o ∈ [orderA; orderB] ->
              findMakerIndex exMakers exTokens o 0 (-1) <> Ok (Z.of_nat j)) ->
           final !! j = ledgerA !! j
  | Throw _ => False
  end.
Proof.
  destruct (run_foldOrders exMakers exTokens bookRequest ledgerA []
              [orderA; orderB]) as [[final res] | e] eqn:Hrun.
  - exact (foldOrders_frame NULL_ADDRESS DIVA_GOVERNANCE_ADDRESS DECIMAL_PLACES
             exMakers exTokens bookRequest [orderA; orderB] ledgerA [] final res
             Hrun).
  - vm_compute in Hrun. discriminate Hrun.
Defined.

Lemma fold_run_only_consumes :
  finiteLedger ledgerA
  /\ match run_foldOrders exMakers exTokens bookRequest ledgerA []
             [orderA; orderB] with
     | Ok (final, res) => ledgerLe final ledgerA
     | Throw _ => False
     end.
Proof.
  assert (finiteLedger ledgerA) as Hfin by (repeat constructor; eexists; reflexivity).
  split; [exact Hfin |].
  assert (forall o, o ∈ [orderA; orderB] -> wholeOrder o) as Hwhole.
  { intros o Hin. apply list_elem_of_In in Hin. simpl in Hin.
    destruct Hin as [<- | [<- | []]].
    - exists 800000, 800000, (inject_Z 800000).
      repeat split; try reflexivity; discriminate.
    - exists 500000, 500000, (inject_Z 500000).
      repeat split; try reflexivity; discriminate. }
  destruct (run_foldOrders exMakers exTokens bookRequest ledgerA []
              [orderA; orderB]) as [[final res] | e] eqn:Hrun.
  - exact (foldOrders_only_consumes NULL_ADDRESS DIVA_GOVERNANCE_ADDRESS
             DECIMAL_PLACES exMakers exTokens bookRequest [orderA; orderB]
             Hwhole ledgerA [] final res Hfin Hrun).
  - vm_compute in Hrun. discriminate Hrun.
Defined.

(** *** Exhausted and sufficient collateral *)

Lemma order_on_an_empty_entry :
  (length exMakers <= length exTokens)%nat
  /\ [of_Z 0; of_Z 0] !! 1%nat = Some (of_Z 0)
  /\ gt (of_Z 0) (of_Z 0) = false
  /\ run_getFillableOrder exMakers exTokens [of_Z 0; of_Z 0] orderB
     = Ok {| extendedOrder := withRemaining orderB (of_Z 0);
             minOfBalancesOrAllowances := [of_Z 0; of_Z 0] |}
  /\ forall req, run_filterOrder (withRemaining orderB (of_Z 0)) req = false.
Proof.
  assert (length exMakers <= length exTokens)%nat as H1 by (simpl; lia).
  assert ([of_Z 0; of_Z 0] !! 1%nat = Some (of_Z 0)) as H2 by reflexivity.
  assert (gt (of_Z 0) (of_Z 0) = false) as H3 by reflexivity.
  exact (conj H1 (conj H2 (conj H3
           (exhausted_entry_drops_order NULL_ADDRESS DIVA_GOVERNANCE_ADDRESS
              DECIMAL_PLACES exMakers exTokens [of_Z 0; of_Z 0] orderB 1
              (of_Z 0) H1 orderB_last_occurrence H2 H3)))).
Defined.

Lemma order_after_a_clipped_order :
  gt (of_Z 200000) (of_Z 0) = true
  /\ gt (remainingFillableMakerAmount DECIMAL_PLACES orderB) (of_Z 200000) = true
  /\ exists f1 f2,
       run_getFillableOrder exMakers exTokens ledgerB orderB = Ok f1
       /\ run_getFillableOrder exMakers exTokens
            (minOfBalancesOrAllowances f1) orderA = Ok f2
       /\ extendedOrder f2 = withRemaining orderA (of_Z 0)
       /\ minOfBalancesOrAllowances f2 = minOfBalancesOrAllowances f1
       /\ forall req, run_filterOrder (extendedOrder f2) req = false.
Proof.
  assert (length exMakers <= length exTokens)%nat as H1 by (simpl; lia).
  assert (ledgerB !! 1%nat = Some (of_Z 200000)) as H2 by reflexivity.
  assert (gt (of_Z 200000) (of_Z 0) = true) as H3 by reflexivity.
  assert (gt (remainingFillableMakerAmount DECIMAL_PLACES orderB) (of_Z 200000)
          = true) as H4 by (vm_compute; reflexivity).
  exact (conj H3 (conj H4
           (clipped_order_exhausts_pair NULL_ADDRESS DIVA_GOVERNANCE_ADDRESS
              DECIMAL_PLACES exMakers exTokens ledgerB orderB orderA 1
              (of_Z 200000) H1 orderB_last_occurrence eq_refl eq_refl H2 H3 H4))).
Defined.

Lemma covered_order_comes_back :
  gt (of_Z 1000000) (of_Z 0) = true
  /\ gt (remainingFillableMakerAmount DECIMAL_PLACES orderA) (of_Z 1000000) = false
  /\ exists f,
       run_getFillableOrder exMakers exTokens ledgerA orderA = Ok f
       /\ extendedOrder f = orderA
       /\ forall req,
            run_filterOrder (extendedOrder f) req = run_filterOrder orderA req.
Proof.
  assert (length exMakers <= length exTokens)%nat as H1 by (simpl; lia).
  assert (ledgerA !! 1%nat = Some (of_Z 1000000)) as H2 by reflexivity.
  assert (gt (of_Z 1000000) (of_Z 0) = true) as H3 by reflexivity.
  assert (gt (remainingFillableMakerAmount DECIMAL_PLACES orderA) (of_Z 1000000)
          = false) as H4 by (vm_compute; reflexivity).
  exact (conj H3 (conj H4
           (covered_order_is_unchanged NULL_ADDRESS DIVA_GOVERNANCE_ADDRESS
              DECIMAL_PLACES exMakers exTokens ledgerA orderA 1 (of_Z 1000000)
              H1 orderA_last_occurrence H2 H3 H4))).
Defined.

(** *** The filters of a request *)

Lemma threshold_of_the_order_book :
  req_threshold bookRequest <= 100
  /\ thresholdCheckRejects order101 bookRequest
     = lte (remainingFillableTakerAmount (metaData order101)) (of_Z 100).
Proof.
  assert (req_threshold bookRequest <= 100) as H by (vm_compute; discriminate).
  exact (conj H (low_threshold_is_dust_floor order101 bookRequest H)).
Defined.

Lemma prices_query_with_a_taker :
  (query_graphUrl pricesQuery = None ->
   orderbookPricesRequest NULL_ADDRESS 1 10 pricesQuery = Throw TypeError)
  /\ match orderbookPricesRequest NULL_ADDRESS 1 10 pricesQuery with
     | Ok req =>
         (query_taker pricesQuery = None ->
          forall o, takerCheckRejects NULL_ADDRESS o req = false)
         /\ (forall t o, query_taker pricesQuery = Some t ->
               toLowerCase (taker (order o)) = toLowerCase t ->
               takerCheckRejects NULL_ADDRESS o req = false)
         /\ (forall t o, query_taker pricesQuery = Some t ->
               toLowerCase t <> NULL_ADDRESS ->
               toLowerCase (taker (order o)) <> toLowerCase t ->
               takerCheckRejects NULL_ADDRESS o req = true)
     | Throw _ => False
     end.
Proof.
  split.
  - exact (proj1 (prices_request_taker_filter NULL_ADDRESS 1 10 pricesQuery)).
  - destruct (orderbookPricesRequest NULL_ADDRESS 1 10 pricesQuery)
      as [req | e] eqn:Hreq.
    + exact (proj2 (prices_request_taker_filter NULL_ADDRESS 1 10 pricesQuery)
               req Hreq).
    + vm_compute in Hreq. discriminate Hreq.
Defined.

Lemma prices_query_without_filters :
  match orderbookPricesRequest NULL_ADDRESS 1 10 emptyQuery with
  | Ok req =>
      run_filterOrder order101 req
      = negb (lte (remainingFillableTakerAmount (metaData order101)) (of_Z 100))
  | Throw _ => False
  end.
Proof.
  destruct (orderbookPricesRequest NULL_ADDRESS 1 10 emptyQuery)
    as [req | e] eqn:Hreq.
  - exact (empty_query_is_dust_floor NULL_ADDRESS DIVA_GOVERNANCE_ADDRESS 1 10
             emptyQuery req order101 Hreq eq_refl eq_refl eq_refl eq_refl).
  - vm_compute in Hreq. discriminate Hreq.
Defined.

(** *** Best prices *)

(** The makers of the market: the bids share the second slot, the ask has
    the third. *)
Definition marketMakers : list string := ["0xAA"; "0xaa"; "0xbb"].
Definition marketTokens : list string := ["0xCC"; "0xcc"; "0xbase"].
Definition marketLedger : list BigNumber := [of_Z 0; of_Z 1000000; of_Z 1000].

Lemma best_bid_scan_is_a_cut_fold :
  match run_scanBest marketMakers marketTokens bookRequest marketLedger
          [order100; orderB; orderA] with
  | Ok (final, best) =>
      match best with
      | Some b =>
          exists pre o post,
            [order100; orderB; orderA] = (pre ++ o :: post)%list
            /\ getBidOrAskFormat getAddress o = Ok b
            /\ run_foldOrders marketMakers marketTokens bookRequest marketLedger
                 [] (pre ++ [o])%list = Ok (final, [o])
      | None =>
          run_foldOrders marketMakers marketTokens bookRequest marketLedger []
            [order100; orderB; orderA] = Ok (final, [])
      end
  | Throw _ => False
  end.
Proof.
  destruct (run_scanBest marketMakers marketTokens bookRequest marketLedger
              [order100; orderB; orderA]) as [[final best] | e] eqn:Hrun.
  - exact (scanBest_is_a_cut_fold NULL_ADDRESS DIVA_GOVERNANCE_ADDRESS
             DECIMAL_PLACES getAddress marketMakers marketTokens bookRequest
             [order100; orderB; orderA] marketLedger final best Hrun).
  - vm_compute in Hrun. discriminate Hrun.
Defined.

Lemma best_bid_is_first_of_the_book :
  match run_foldOrders marketMakers marketTokens bookRequest marketLedger []
          [order100; orderB; orderA],
        run_scanBest marketMakers marketTokens bookRequest marketLedger
          [order100; orderB; orderA] with
  | Ok (final, res), Ok (final', best) =>
      exists kept,
        res = ([] ++ kept)%list
        /\ match kept with
           | [] => best = None /\ final' = final
           | o :: _ =>
               exists b, getBidOrAskFormat getAddress o = Ok b /\ best = Some b
           end
  | _, _ => False
  end.
Proof.
  destruct (run_foldOrders marketMakers marketTokens bookRequest marketLedger []
              [order100; orderB; orderA]) as [[final res] | e] eqn:Hfold.
  - destruct (run_scanBest marketMakers marketTokens bookRequest marketLedger
                [order100; orderB; orderA]) as [[final' best] | e] eqn:Hscan.
    + exact (best_is_top_of_book NULL_ADDRESS DIVA_GOVERNANCE_ADDRESS
               DECIMAL_PLACES getAddress marketMakers marketTokens bookRequest
               [order100; orderB; orderA] marketLedger [] final res final' best
               Hfold Hscan).
    + vm_compute in Hscan. discriminate Hscan.
  - vm_compute in Hfold. discriminate Hfold.
Defined.

Lemma one_record_for_the_market :
  match run_scanPools marketMakers marketTokens bookRequest marketLedger []
          [market; market] with
  | Ok (final, res) =>
      length res = length [market; market]
      /\ Forall2 (recordOf getAddress) [market; market] res
  | Throw _ => False
  end.
Proof.
  destruct (run_scanPools marketMakers marketTokens bookRequest marketLedger []
              [market; market]) as [[final res] | e] eqn:Hrun.
  - exact (scanPools_one_record_per_pool NULL_ADDRESS DIVA_GOVERNANCE_ADDRESS
             DECIMAL_PLACES getAddress marketMakers marketTokens bookRequest
             [market; market] marketLedger final res Hrun).
  - vm_compute in Hrun. discriminate Hrun.
Defined.

(** *** Queries *)

Lemma orders_of_the_trader_0xaa :
  "0xaa" <> EmptyString
  /\ orderB ∈ getOrdersAsync_retained 1000 10 1000000 anyFilter (Some "0xaa")
                [orderA; orderB]
  /\ (maker (order orderB) = "0xaa" \/ taker (order orderB) = "0xaa")
  /\ MoreThanOrEqual (minExpiryTime 1000 10 1000000) orderB = true
  /\ where_others anyFilter orderB = true.
Proof.
  assert ("0xaa" <> EmptyString) as H1 by discriminate.
  assert (orderB ∈ getOrdersAsync_retained 1000 10 1000000 anyFilter
                     (Some "0xaa") [orderA; orderB]) as H2
    by (vm_compute; apply list_elem_of_here).
  exact (conj H1 (conj H2
           (trader_is_maker_or_taker 1000 10 1000000 anyFilter "0xaa"
              [orderA; orderB] orderB H1 H2))).
Defined.

Lemma table_split_by_direction :
  let bidApiOrders :=
    fst (getSignedOrderEntities isFreshOrder sortBids sortAsks "0xbase" "0xcc"
           table) in
  let askApiOrders :=
    snd (getSignedOrderEntities isFreshOrder sortBids sortAsks "0xbase" "0xcc"
           table) in
  (forall o, o ∈ bidApiOrders ->
     o ∈ table /\ takerToken (order o) = "0xbase"
     /\ makerToken (order o) = "0xcc")
  /\ (forall o, o ∈ askApiOrders ->
        o ∈ table /\ takerToken (order o) = "0xcc"
        /\ makerToken (order o) = "0xbase")
  /\ ("0xbase" <> "0xcc" ->
      forall o, ~ (o ∈ bidApiOrders /\ o ∈ askApiOrders)).
Proof.
  exact (getSignedOrderEntities_splits_by_direction isFreshOrder sortBids
           sortAsks "0xbase" "0xcc" table rankings_keep_orders).
Defined.

End Runs.
